(** * lectio/properties: typed properties, property collections and
      YAML front matter

    A shallow embedding of the Go package [properties] (files [property.go],
    [factory.go] and [properties.go]) together with the theorems that settle
    the statements of its specification. The struct of [resource.go] has no
    method [Copy] and so is no [Property]; it is left out.

    Conventions of the embedding
    - a Go [string] is a Rocq [string] (one [ascii] per byte), a [[]byte] is
      a [list byte];
    - an [interface{}] value is a tagged union ([any]) over the dynamic
      types that the code distinguishes;
    - a Go triple [(Property, bool, error)] is a Rocq triple whose first and
      last components are options ([None] is [nil]);
    - the [context.Context] argument of every function is dropped: the
      package only passes it along;
    - a method with a pointer receiver that mutates the receiver takes the
      receiver and returns the updated one;
    - a computation that can stop on a run-time panic returns an option,
      [None] being the panic;
    - the imported libraries [dateparse] and [yaml.v2] are parameters of the
      functions that call them. *)

From Stdlib Require Import ZArith List Strings.String Strings.Ascii Strings.Byte.
From Stdlib Require Import Lia Bool DecimalString.
From stdpp Require Import base gmap strings list.

Local Open Scope Z_scope.

#[global] Instance byte_eq_dec : EqDecision byte := Byte.byte_eq_dec.

Abbreviation bytes := (list byte).

(** [B s] is the Go conversion [[]byte(s)]. *)
Definition B (s : string) : bytes := list_byte_of_string s.

Definition newline : byte := "010"%byte.

(** [unlines ls] writes every element of [ls] followed by a line feed. *)
Fixpoint unlines (ls : list string) : bytes :=
  match ls with
  | [] => []
  | l :: ls' => B l ++ newline :: unlines ls'
  end.

Definition len {A} (l : list A) : Z := Z.of_nat (length l).

(** ** The Go standard library, as far as the package calls it *)

Module utf8.

Definition RuneError : Z := 65533.
Definition RuneSelf : Z := 128.
Definition UTFMax : nat := 4.

Definition byteZ (b : byte) : Z := Z.of_N (Byte.to_N b).

Definition between (lo hi x : Z) : bool := (lo <=? x) && (x <=? hi).

(** The continuation byte range accepted after the lead byte [p0], and the
    length of the sequence it starts; [None] for a byte that starts no
    multi-byte sequence (the table [first] of the Go source). *)
Definition lead (p0 : Z) : option (nat * Z * Z) :=
  if between 194 223 p0 then Some (2%nat, 128, 191)
  else if p0 =? 224 then Some (3%nat, 160, 191)
  else if between 225 236 p0 then Some (3%nat, 128, 191)
  else if p0 =? 237 then Some (3%nat, 128, 159)
  else if between 238 239 p0 then Some (3%nat, 128, 191)
  else if p0 =? 240 then Some (4%nat, 144, 191)
  else if between 241 243 p0 then Some (4%nat, 128, 191)
  else if p0 =? 244 then Some (4%nat, 128, 143)
  else None.

Definition cont (b : Z) : bool := between 128 191 b.
Definition low6 (b : Z) : Z := Z.land b 63.

(** [utf8.DecodeRune]: the first rune of [p] and its width in bytes. *)
Definition DecodeRune (p : bytes) : Z * nat :=
  match p with
  | [] => (RuneError, 0%nat)
  | b0 :: rest =>
      let p0 := byteZ b0 in
      if p0 <? RuneSelf then (p0, 1%nat)
      else
        match lead p0 with
        | None => (RuneError, 1%nat)
        | Some (sz, lo, hi) =>
            if (length p <? sz)%nat then (RuneError, 1%nat)
            else
              match rest with
              | [] => (RuneError, 1%nat)
              | c1 :: rest1 =>
                  let b1 := byteZ c1 in
                  if negb (between lo hi b1) then (RuneError, 1%nat)
                  else if (sz <=? 2)%nat
                  then (Z.lor (Z.shiftl (Z.land p0 31) 6) (low6 b1), 2%nat)
                  else
                    match rest1 with
                    | [] => (RuneError, 1%nat)
                    | c2 :: rest2 =>
                        let b2 := byteZ c2 in
                        if negb (cont b2) then (RuneError, 1%nat)
                        else if (sz <=? 3)%nat
                        then (Z.lor (Z.shiftl (Z.land p0 15) 12)
                                (Z.lor (Z.shiftl (low6 b1) 6) (low6 b2)), 3%nat)
                        else
                          match rest2 with
                          | [] => (RuneError, 1%nat)
                          | c3 :: _ =>
                              let b3 := byteZ c3 in
                              if negb (cont b3) then (RuneError, 1%nat)
                              else (Z.lor (Z.shiftl (Z.land p0 7) 18)
                                      (Z.lor (Z.shiftl (low6 b1) 12)
                                         (Z.lor (Z.shiftl (low6 b2) 6) (low6 b3))),
                                    4%nat)
                          end
                    end
              end
        end
  end.

(** [utf8.RuneStart] *)
Definition RuneStart (b : byte) : bool := negb (Z.land (byteZ b) 192 =? 128).

(** The backwards search of [DecodeLastRune]: starting at index [start]
    and going down while [start >= lim], stop at a byte that can start a
    rune. At most [UTFMax] positions are visited. *)
Fixpoint seekStart (p : bytes) (lim : Z) (start : Z) (n : nat) : Z :=
  match n with
  | O => start
  | S n' =>
      if start <? lim then start
      else
        match nth_error p (Z.to_nat start) with
        | Some b => if RuneStart b then start else seekStart p lim (start - 1) n'
        | None => start
        end
  end.

(** [utf8.DecodeLastRune]: the last rune of [p] and its width. *)
Definition DecodeLastRune (p : bytes) : Z * nat :=
  let e := len p in
  if e =? 0 then (RuneError, 0%nat)
  else
    match nth_error p (Z.to_nat (e - 1)) with
    | None => (RuneError, 0%nat)
    | Some bl =>
        let r := byteZ bl in
        if r <? RuneSelf then (r, 1%nat)
        else
          let lim := Z.max 0 (e - Z.of_nat UTFMax) in
          let start := Z.max 0 (seekStart p lim (e - 2) UTFMax) in
          let '(r', size) := DecodeRune (skipn (Z.to_nat start) p) in
          if start + Z.of_nat size =? e then (r', size) else (RuneError, 1%nat)
    end.

End utf8.

Module unicode.

(** [unicode.IsSpace]: the code points with the White_Space property. *)
Definition IsSpace (r : Z) : bool :=
  if r <=? 255
  then utf8.between 9 13 r || (r =? 32) || (r =? 133) || (r =? 160)
  else (r =? 5760) || utf8.between 8192 8202 r || (r =? 8232) || (r =? 8233)
       || (r =? 8239) || (r =? 8287) || (r =? 12288).

End unicode.

Module strings.

(** [strings.TrimLeftFunc s unicode.IsSpace]; [n] bounds the number of
    runes removed, the length of [s] always suffices. *)
Fixpoint trimLeft (n : nat) (s : bytes) : bytes :=
  match n with
  | O => s
  | S n' =>
      let '(r, w) := utf8.DecodeRune s in
      match w with
      | O => s
      | _ => if unicode.IsSpace r then trimLeft n' (skipn w s) else s
      end
  end.

(** [strings.TrimRightFunc s unicode.IsSpace] *)
Fixpoint trimRight (n : nat) (s : bytes) : bytes :=
  match n with
  | O => s
  | S n' =>
      let '(r, w) := utf8.DecodeLastRune s in
      match w with
      | O => s
      | _ => if unicode.IsSpace r then trimRight n' (firstn (length s - w) s) else s
      end
  end.

(** [strings.TrimSpace]: [s] without its leading and trailing white
    space, as defined by Unicode. *)
Definition TrimSpace (s : bytes) : bytes :=
  let l := trimLeft (length s) s in
  trimRight (length l) l.

End strings.

Module bytes_.

(** [bytes.TrimSpace]: as [strings.TrimSpace], but the result is the nil
    slice ([None]) when nothing is left. *)
Definition TrimSpace (s : bytes) : option bytes :=
  match strings.TrimSpace s with
  | [] => None
  | t => Some t
  end.

(** [Buffer.ReadString] of package [bytes]: the unread bytes up to and including the
    first [delim], the bytes left in the buffer, and whether the end of
    the buffer was reached before a [delim] ([io.EOF]). *)
Fixpoint ReadString (delim : byte) (buf : bytes) : bytes * bytes * bool :=
  match buf with
  | [] => ([], [], true)
  | c :: rest =>
      if bool_decide (c = delim) then ([c], rest, false)
      else let '(line, rest', eof) := ReadString delim rest in (c :: line, rest', eof)
  end.

End bytes_.

Module strconv.

(** [strconv.ParseBool]; [None] is the syntax error. *)
Definition ParseBool (str : string) : option bool :=
  if bool_decide (str ∈ ["1"; "t"; "T"; "true"; "TRUE"; "True"]%string) then Some true
  else if bool_decide (str ∈ ["0"; "f"; "F"; "false"; "FALSE"; "False"]%string) then Some false
  else None.

Definition maxUint64 : Z := 2 ^ 64 - 1.

(** The digit loop of [strconv.ParseUint s 10 64], started with the value
    [n] read so far; [None] is a syntax or range error. *)
Fixpoint parseDigits (s : string) (n : Z) : option Z :=
  match s with
  | EmptyString => Some n
  | String c s' =>
      let d := Z.of_N (N_of_ascii c) - 48 in
      if (0 <=? d) && (d <=? 9) then
        if maxUint64 / 10 + 1 <=? n then None
        else
          let n1 := n * 10 + d in
          if maxUint64 <? n1 then None else parseDigits s' n1
      else None
  end.

Definition ParseUint10 (s : string) : option Z :=
  match s with
  | EmptyString => None
  | _ => parseDigits s 0
  end.

(** [strconv.ParseInt s 10 64]; [None] is a syntax or range error. *)
Definition ParseInt10 (s : string) : option Z :=
  match s with
  | EmptyString => None
  | String c s' =>
      let '(neg, digits) :=
        if Ascii.eqb c "+" then (false, s')
        else if Ascii.eqb c "-" then (true, s')
        else (false, s) in
      match ParseUint10 digits with
      | None => None
      | Some un =>
          let cutoff := 2 ^ 63 in
          if negb neg && (cutoff <=? un) then None
          else if neg && (cutoff <? un) then None
          else Some (if neg then - un else un)
      end
  end.

End strconv.

(** ** Values of type [interface{}] *)

(** [time.Time], reduced to the instant and the zone offset. *)
Record Time := mkTime { unixNano : Z; zoneOffset : Z }.

#[global] Instance Time_eq_dec : EqDecision Time.
Proof. solve_decision. Defined.

(** The integer types that [FromAny] has no case for. *)
Inductive IntKind :=
  KInt8 | KInt16 | KInt32 | KUint | KUint8 | KUint16 | KUint32 | KUint64.

#[global] Instance IntKind_eq_dec : EqDecision IntKind.
Proof. solve_decision. Defined.

(** A value of type [interface{}]: its dynamic type and its value. [VOpaque]
    stands for a value of any type not listed, given by the name of its type
    and its printed form. *)
Inductive any :=
| VNil
| VString (s : string)
| VStrings (l : list string)
| VTime (t : Time)
| VBool (b : bool)
| VInt (n : Z)
| VInt64 (n : Z)
| VSized (k : IntKind) (n : Z)
| VOpaque (typeName : string) (printed : string).

#[global] Instance any_eq_dec : EqDecision any.
Proof. solve_decision. Defined.

Definition intKindName (k : IntKind) : string :=
  match k with
  | KInt8 => "int8" | KInt16 => "int16" | KInt32 => "int32"
  | KUint => "uint" | KUint8 => "uint8" | KUint16 => "uint16"
  | KUint32 => "uint32" | KUint64 => "uint64"
  end.

(** What the verb [%T] prints for a value. *)
Definition typeOf (v : any) : string :=
  match v with
  | VNil => "<nil>"
  | VString _ => "string"
  | VStrings _ => "[]string"
  | VTime _ => "time.Time"
  | VBool _ => "bool"
  | VInt _ => "int"
  | VInt64 _ => "int64"
  | VSized k _ => intKindName k
  | VOpaque t _ => t
  end.

(** The values a variable of each integer type can hold ([int] and [uint]
    are 64 bits wide). *)
Definition minInt64 : Z := - 2 ^ 63.
Definition maxInt64 : Z := 2 ^ 63 - 1.

Definition inInt64 (n : Z) : Prop := minInt64 <= n <= maxInt64.

Definition inKind (k : IntKind) (n : Z) : Prop :=
  match k with
  | KInt8 => - 2 ^ 7 <= n < 2 ^ 7
  | KInt16 => - 2 ^ 15 <= n < 2 ^ 15
  | KInt32 => - 2 ^ 31 <= n < 2 ^ 31
  | KUint8 => 0 <= n < 2 ^ 8
  | KUint16 => 0 <= n < 2 ^ 16
  | KUint32 => 0 <= n < 2 ^ 32
  | KUint | KUint64 => 0 <= n < 2 ^ 64
  end.

(** A well-formed value: every integer lies in the range of its type. *)
Definition wellTyped (v : any) : Prop :=
  match v with
  | VInt n | VInt64 n => inInt64 n
  | VSized k n => inKind k n
  | _ => True
  end.

(** The conversion [int64(n)] of an integer: the low 64 bits, signed. *)
Definition int64 (n : Z) : Z := (n + 2 ^ 63) mod 2 ^ 64 - 2 ^ 63.

(** A [uint] counter wraps around at 64 bits. *)
Definition uint (n : Z) : Z := n mod 2 ^ 64.

(** ** property.go *)

Definition PropertyName := string.

(** The implementations of the interface [Property]. [CustomProperty] stands
    for an implementation outside this package (one that a hook returns),
    given by what its methods [Name] and [AnyValue] return. *)
Inductive Property :=
| DefaultDateTimeProperty (PropName : PropertyName) (Time_ : Time)
| DefaultFlagProperty (PropName : PropertyName) (Flag : bool)
| DefaultCardinalProperty (PropName : PropertyName) (Number : Z)
| DefaultTextProperty (PropName : PropertyName) (Text : string)
| DefaultTextListProperty (PropName : PropertyName) (Slice : list string)
| CustomProperty (PropName : PropertyName) (value : any).

#[global] Instance Property_eq_dec : EqDecision Property.
Proof. solve_decision. Defined.

Definition Name (p : Property) : PropertyName :=
  match p with
  | DefaultDateTimeProperty n _ | DefaultFlagProperty n _
  | DefaultCardinalProperty n _ | DefaultTextProperty n _
  | DefaultTextListProperty n _ | CustomProperty n _ => n
  end.

Definition AnyValue (p : Property) : any :=
  match p with
  | DefaultDateTimeProperty _ t => VTime t
  | DefaultFlagProperty _ b => VBool b
  | DefaultCardinalProperty _ n => VInt64 n
  | DefaultTextProperty _ s => VString s
  | DefaultTextListProperty _ l => VStrings l
  | CustomProperty _ v => v
  end.

(** [Copy] stores the value under the name in the given map. *)
Definition Copy (p : Property) (m : gmap string any) : gmap string any :=
  <[Name p := AnyValue p]> m.

(** ** Errors *)

Inductive error :=
| ErrUnknownType (name : string) (typ : string) (value : any)
    (* "Unable to add %q property, type %T is not known: %+v" *)
| ErrItemsNil (message : string)
    (* "items is Nil", "items is Nil in properties.Default.AddMap", ... *)
| ErrFrontMatter (insideFrontMatter : bool) (yamlStartIndex yamlEndIndex : Z)
    (* "Unexplained front matter parser error; ..." *)
| ErrHook (message : string).
    (* an error made by a hook or by another property factory *)

Definition itoa (n : Z) : string := NilZero.string_of_int (Z.to_int n).

(** The text of the front matter error; the other messages print a value
    with [%q] or [%+v] and are not rendered here. *)
Definition frontMatterMessage (inside : bool) (startIndex endIndex : Z) : string :=
  ("Unexplained front matter parser error; insideFrontMatter: "
     ++ (if inside then "true" else "false")
     ++ ", yamlStartIndex: " ++ itoa startIndex
     ++ ", yamlEndIndex: " ++ itoa endIndex)%string.

Definition Result : Type := option Property * bool * option error.

Definition accepted (r : Result) : bool := r.1.2.
Definition failure (r : Result) : option error := r.2.
Definition created (r : Result) : option Property := r.1.1.

(** ** Hooks and the variadic options

    A hook is caller-supplied code; it is embedded as a function of its
    arguments. The variadic [options ...interface{}] reach a hook as the
    list of the options' tags ([OptionTags]), which identifies the values
    that were passed without making the type of hooks refer to itself. *)

Definition OptionTags := list string.

Definition CustomCreatorFunc := string -> any -> OptionTags -> Result.

Record CustomCreatorHandler := {
  handlerFromText : string -> string -> OptionTags -> Result;
  handlerFromAny : string -> any -> OptionTags -> Result }.

Definition AfterCreateHookFunc := Property -> OptionTags -> Result.

Record AfterCreateHook := {
  hookAfterCreate : Property -> OptionTags -> Result }.

(** [AllowAdd] receives the property that [AddProperty] was given, which may
    be nil. *)
Record AddPropertyPolicy := {
  AllowAdd : option Property -> OptionTags -> Result }.

(** [PropertyAdded] returns nothing; the collection records its calls (see
    [notified] below). *)
Record AddPropertyEvent := { eventName : string }.

(** One element of [options]: a value and the outcome of each type
    assertion that the package applies to it. *)
Record Option_ := {
  optTag : string;
  asCustomCreatorFunc : option CustomCreatorFunc;
  asCustomCreatorHandler : option CustomCreatorHandler;
  asAddPropertyPolicy : option AddPropertyPolicy;
  asAddPropertyEvent : option AddPropertyEvent }.

Definition Options := list Option_.

Definition tags (options : Options) : OptionTags := map optTag options.

Definition plainOption (tag : string) : Option_ :=
  {| optTag := tag; asCustomCreatorFunc := None; asCustomCreatorHandler := None;
     asAddPropertyPolicy := None; asAddPropertyEvent := None |}.

Definition creatorFuncOption (tag : string) (fn : CustomCreatorFunc) : Option_ :=
  {| optTag := tag; asCustomCreatorFunc := Some fn; asCustomCreatorHandler := None;
     asAddPropertyPolicy := None; asAddPropertyEvent := None |}.

Definition policyOption (tag : string) (pol : AddPropertyPolicy) : Option_ :=
  {| optTag := tag; asCustomCreatorFunc := None; asCustomCreatorHandler := None;
     asAddPropertyPolicy := Some pol; asAddPropertyEvent := None |}.

Definition eventOption (tag : string) (ev : AddPropertyEvent) : Option_ :=
  {| optTag := tag; asCustomCreatorFunc := None; asCustomCreatorHandler := None;
     asAddPropertyPolicy := None; asAddPropertyEvent := Some ev |}.

(** ** factory.go: the property factory *)

(** The interface [PropertyFactory]. *)
Record PropertyFactory := {
  pfFromText : string -> string -> Options -> Result;
  pfFromAny : string -> any -> Options -> Result }.

Record DefaultPropertyFactory := {
  fCustomCreatorFunc : option CustomCreatorFunc;
  fCustomCreator : option CustomCreatorHandler;
  fAfterCreateHookFunc : option AfterCreateHookFunc;
  fAfterCreate : option AfterCreateHook }.

(** [ThePropertyFactory = &DefaultPropertyFactory{}] *)
Definition ThePropertyFactory : DefaultPropertyFactory :=
  {| fCustomCreatorFunc := None; fCustomCreator := None;
     fAfterCreateHookFunc := None; fAfterCreate := None |}.

Definition afterSuccessfulCreate (f : DefaultPropertyFactory) (property : Property)
    (options : Options) : Result :=
  match fAfterCreate f with
  | Some h => hookAfterCreate h property (tags options)
  | None =>
      match fAfterCreateHookFunc f with
      | Some fn => fn property (tags options)
      | None => (Some property, true, None)
      end
  end.

(** The loop of [handleUnknownType] over the options: the first option that
    is a creator function or a creator handler is called and its result
    returned. [all] is the whole list, which the creator is passed. *)
Fixpoint perCallCreator (rest all : Options) (name : string) (value : any)
    : option Result :=
  match rest with
  | [] => None
  | opt :: rest' =>
      match asCustomCreatorFunc opt with
      | Some fn => Some (fn name value (tags all))
      | None =>
          match asCustomCreatorHandler opt with
          | Some instance => Some (handlerFromAny instance name value (tags all))
          | None => perCallCreator rest' all name value
          end
      end
  end.

Definition handleUnknownType (f : DefaultPropertyFactory) (name : string) (value : any)
    (options : Options) : Result :=
  match perCallCreator options options name value with
  | Some r => r
  | None =>
      match fCustomCreator f with
      | Some h => handlerFromAny h name value []
      | None =>
          match fCustomCreatorFunc f with
          | Some fn => fn name value []
          | None => (None, false, Some (ErrUnknownType name (typeOf value) value))
          end
      end
  end.

Definition FromAny (f : DefaultPropertyFactory) (name : string) (v : any)
    (options : Options) : Result :=
  match v with
  | VString value => afterSuccessfulCreate f (DefaultTextProperty name value) options
  | VStrings value => afterSuccessfulCreate f (DefaultTextListProperty name value) options
  | VTime value => afterSuccessfulCreate f (DefaultDateTimeProperty name value) options
  | VBool value => afterSuccessfulCreate f (DefaultFlagProperty name value) options
  | VInt value => afterSuccessfulCreate f (DefaultCardinalProperty name (int64 value)) options
  | VInt64 value => afterSuccessfulCreate f (DefaultCardinalProperty name value) options
  | _ => handleUnknownType f name v options
  end.

(** *** The calls that panic

    Two calls of [FromAny] panic in the code of the package itself.

    A Go function value can be nil. A nil value of type [CustomCreatorFunc]
    among the options passes the type assertion
    [option.(CustomCreatorFunc)] of [handleUnknownType], which then calls
    it without a nil check; calling a nil function panics. (The creator
    function of the factory is compared with nil before it is called, and a
    nil interface value passes no type assertion.) To every other type
    assertion of the package such a value is an option of no use.

    The receiver is a pointer, and a method can be called on a nil pointer:
    the call panics where it first reads a field of the factory, which is
    in [afterSuccessfulCreate], and in [handleUnknownType] after the loop
    over the options.

    [Option_] describes the options that are not such a nil function, and
    the definitions above take those and a factory that is not nil. The
    definitions of this module take options that may be a nil function and
    a receiver that may be nil, and return [None] for the panic. *)

Inductive Argument :=
| Value (o : Option_)
| NilCreatorFunc (tag : string).

Definition argumentTag (a : Argument) : string :=
  match a with
  | Value o => optTag o
  | NilCreatorFunc tag => tag
  end.

(** The option as every type assertion but [option.(CustomCreatorFunc)]
    sees it. *)
Definition asOption (a : Argument) : Option_ :=
  match a with
  | Value o => o
  | NilCreatorFunc tag => plainOption tag
  end.

Module Nilable.

(** The receiver: [None] is the nil pointer. *)
Definition Receiver := option DefaultPropertyFactory.

Definition afterSuccessfulCreate (f : Receiver) (property : Property)
    (options : list Argument) : option Result :=
  match f with
  | None => None
  | Some factory => Some (afterSuccessfulCreate factory property (asOption <$> options))
  end.

(** The loop of [handleUnknownType]: [None] when no option is a creator,
    [Some None] when the first creator is a nil function and the call
    panics, [Some (Some r)] when the first creator returns [r]. *)
Fixpoint perCallCreator (rest all : list Argument) (name : string) (value : any)
    : option (option Result) :=
  match rest with
  | [] => None
  | NilCreatorFunc _ :: _ => Some None
  | Value opt :: rest' =>
      match asCustomCreatorFunc opt with
      | Some fn => Some (Some (fn name value (argumentTag <$> all)))
      | None =>
          match asCustomCreatorHandler opt with
          | Some instance =>
              Some (Some (handlerFromAny instance name value (argumentTag <$> all)))
          | None => perCallCreator rest' all name value
          end
      end
  end.

Definition handleUnknownType (f : Receiver) (name : string) (value : any)
    (options : list Argument) : option Result :=
  match perCallCreator options options name value with
  | Some outcome => outcome
  | None =>
      match f with
      | None => None
      | Some factory =>
          Some match fCustomCreator factory with
               | Some h => handlerFromAny h name value []
               | None =>
                   match fCustomCreatorFunc factory with
                   | Some fn => fn name value []
                   | None => (None, false, Some (ErrUnknownType name (typeOf value) value))
                   end
               end
      end
  end.

Definition FromAny (f : Receiver) (name : string) (v : any)
    (options : list Argument) : option Result :=
  match v with
  | VString value => afterSuccessfulCreate f (DefaultTextProperty name value) options
  | VStrings value => afterSuccessfulCreate f (DefaultTextListProperty name value) options
  | VTime value => afterSuccessfulCreate f (DefaultDateTimeProperty name value) options
  | VBool value => afterSuccessfulCreate f (DefaultFlagProperty name value) options
  | VInt value => afterSuccessfulCreate f (DefaultCardinalProperty name (int64 value)) options
  | VInt64 value => afterSuccessfulCreate f (DefaultCardinalProperty name value) options
  | _ => handleUnknownType f name v options
  end.

End Nilable.

Section Factory.

(** [dateparse.ParseAny] of github.com/araddon/dateparse, which this
    package imports: the time that a text denotes, or [None] when the text
    is in none of the layouts that the library knows. *)
Variable ParseAny : string -> option Time.

Definition FromText (f : DefaultPropertyFactory) (name : string) (value : string)
    (options : Options) : Result :=
  match strconv.ParseBool value with
  | Some flag => FromAny f name (VBool flag) options
  | None =>
      match ParseAny value with
      | Some dateTime => FromAny f name (VTime dateTime) options
      | None =>
          match strconv.ParseInt10 value with
          | Some number => FromAny f name (VInt64 number) options
          | None => FromAny f name (VString value) options
          end
      end
  end.

(** A [*DefaultPropertyFactory] as a [PropertyFactory]. *)
Definition asPropertyFactory (f : DefaultPropertyFactory) : PropertyFactory :=
  {| pfFromText := FromText f; pfFromAny := FromAny f |}.

End Factory.

(** ** properties.go: the collection *)

(** A Go map that is only ranged over: [None] is the nil map, [Some l] a map
    whose entries are [l], in the order in which the [range] statement
    happens to visit them. *)
Definition GoMap (V : Type) : Type := option (list (string * V)).

Definition AllowAddFunc := string -> any -> option Property -> Result.
Definition AllowAddTextFunc := string -> string -> option Property -> Result.

Definition DefaultAllowAdd : AllowAddFunc :=
  fun givenName givenValue createdProp => (createdProp, true, None).

Definition DefaultAllowAddTextFunc : AllowAddTextFunc :=
  fun givenName givenValue createdProp => (createdProp, true, None).

(** The struct [Default]. [syncMap] is the content of the [sync.Map], keyed
    by property name. [notified] is not a field of the Go struct: it lists
    the calls of [addEvent.PropertyAdded] made so far, oldest first, each
    with the name of the event sink, the property and the options passed. *)
Record Default := {
  pf : PropertyFactory;
  syncMap : gmap string Property;
  syncMapSize : Z;
  addPolicy : option AddPropertyPolicy;
  addEvent : option AddPropertyEvent;
  notified : list (string * Property * OptionTags) }.

(** The loop of [newDefaultProperties]: a later option replaces what an
    earlier one has set. *)
Fixpoint configure (result : Default) (options : Options) : Default :=
  match options with
  | [] => result
  | opt :: rest =>
      let result1 :=
        match asAddPropertyPolicy opt with
        | Some instance =>
            {| pf := pf result; syncMap := syncMap result;
               syncMapSize := syncMapSize result; addPolicy := Some instance;
               addEvent := addEvent result; notified := notified result |}
        | None => result
        end in
      let result2 :=
        match asAddPropertyEvent opt with
        | Some instance =>
            {| pf := pf result1; syncMap := syncMap result1;
               syncMapSize := syncMapSize result1; addPolicy := addPolicy result1;
               addEvent := Some instance; notified := notified result1 |}
        | None => result1
        end in
      configure result2 rest
  end.

Definition newDefaultProperties (pf0 : PropertyFactory) (options : Options) : Default :=
  configure {| pf := pf0; syncMap := ∅; syncMapSize := 0; addPolicy := None;
               addEvent := None; notified := [] |} options.

(** The second half of [AddProperty]: store, count, notify. Calling [Name]
    on a nil property panics. *)
Definition store (p : Default) (finalProp : option Property) (options : Options)
    : option (Default * Result) :=
  match finalProp with
  | None => None
  | Some prop =>
      Some ({| pf := pf p;
               syncMap := <[Name prop := prop]> (syncMap p);
               syncMapSize := uint (syncMapSize p + 1);
               addPolicy := addPolicy p;
               addEvent := addEvent p;
               notified :=
                 match addEvent p with
                 | Some ev => notified p ++ [(eventName ev, prop, tags options)]
                 | None => notified p
                 end |},
            (Some prop, true, None))
  end.

Definition AddProperty (p : Default) (givenProp : option Property) (options : Options)
    : option (Default * Result) :=
  match addPolicy p with
  | Some policy =>
      let '(finalProp, add, err) := AllowAdd policy givenProp (tags options) in
      match err with
      | Some e => Some (p, (givenProp, false, Some e))
      | None =>
          if negb add then Some (p, (finalProp, false, None))
          else store p finalProp options
      end
  | None => store p givenProp options
  end.

(** [AddChecked]; [allow] is [None] for a nil function. [AddProperty] is
    called without the options. *)
Definition AddChecked (p : Default) (name : string) (value : any)
    (allow : option AllowAddFunc) (options : Options) : option (Default * Result) :=
  let '(prop, ok, err) := pfFromAny (pf p) name value options in
  match err with
  | Some e => Some (p, (None, false, Some e))
  | None =>
      let '(prop, ok, err) :=
        match allow with
        | Some fn => fn name value prop
        | None => (prop, ok, err)
        end in
      if ok then AddProperty p prop [] else Some (p, (prop, ok, None))
  end.

Definition AddParsedChecked (p : Default) (name : string) (value : string)
    (allow : option AllowAddTextFunc) (options : Options) : option (Default * Result) :=
  let '(prop, ok, err) := pfFromText (pf p) name value options in
  match err with
  | Some e => Some (p, (None, false, Some e))
  | None =>
      let '(prop, ok, err) :=
        match allow with
        | Some fn => fn name value prop
        | None => (prop, ok, err)
        end in
      if ok then AddProperty p prop [] else Some (p, (prop, ok, None))
  end.

Definition AddParsed (p : Default) (name : string) (value : string) (options : Options)
    : option (Default * Result) :=
  AddParsedChecked p name value None options.

Definition Add (p : Default) (name : string) (value : any) (options : Options)
    : option (Default * Result) :=
  AddChecked p name value None options.

(** The [range] loop of [AddMap], started with the count so far. *)
Fixpoint addMapLoop (p : Default) (items : list (string * any))
    (allow : option AllowAddFunc) (options : Options) (count : Z)
    : option (Default * (Z * option error)) :=
  match items with
  | [] => Some (p, (count, None))
  | (name, value) :: rest =>
      match AddChecked p name value allow options with
      | None => None
      | Some (p', (_, ok, err)) =>
          match err with
          | Some e => Some (p', (count, Some e))
          | None => addMapLoop p' rest allow options (if ok then uint (count + 1) else count)
          end
      end
  end.

Definition AddMap (p : Default) (items : GoMap any) (allow : option AllowAddFunc)
    (options : Options) : option (Default * (Z * option error)) :=
  match items with
  | None => Some (p, (0, Some (ErrItemsNil "items is Nil in properties.Default.AddMap")))
  | Some entries => addMapLoop p entries allow options 0
  end.

Fixpoint addTextMapLoop (p : Default) (items : list (string * string))
    (allow : option AllowAddTextFunc) (options : Options) (count : Z)
    : option (Default * (Z * option error)) :=
  match items with
  | [] => Some (p, (count, None))
  | (name, value) :: rest =>
      match AddParsedChecked p name value allow options with
      | None => None
      | Some (p', (_, ok, err)) =>
          match err with
          | Some e => Some (p', (count, Some e))
          | None =>
              addTextMapLoop p' rest allow options (if ok then uint (count + 1) else count)
          end
      end
  end.

Definition AddTextMap (p : Default) (items : GoMap string) (allow : option AllowAddTextFunc)
    (options : Options) : option (Default * (Z * option error)) :=
  match items with
  | None => Some (p, (0, Some (ErrItemsNil "items is Nil in properties.Default.AddTextMap")))
  | Some entries => addTextMapLoop p entries allow options 0
  end.

Definition Delete (p : Default) (name : PropertyName) (options : Options)
    : Default * (bool * option error) :=
  match syncMap p !! name with
  | None => (p, (false, None))
  | Some _ =>
      ({| pf := pf p; syncMap := delete name (syncMap p);
          syncMapSize := uint (syncMapSize p - 1); addPolicy := addPolicy p;
          addEvent := addEvent p; notified := notified p |},
       (true, None))
  end.

Definition DeleteProperty (p : Default) (prop : Property) (options : Options)
    : Default * (bool * option error) :=
  Delete p (Name prop) options.

Definition Size (p : Default) : Z := syncMapSize p.

Definition Named (p : Default) (name : PropertyName) : option Property * bool :=
  match syncMap p !! name with
  | Some prop => (Some prop, true)
  | None => (None, false)
  end.

(** ** factory.go: the collection factory and the front matter *)

Record DefaultPropertiesFactory := { PropFactory : PropertyFactory }.

Definition EmptyMutable (f : DefaultPropertiesFactory) (options : Options) : Default :=
  newDefaultProperties (PropFactory f) options.

Definition fromStringMap (f : DefaultPropertiesFactory) (items : GoMap any)
    (allow : option AllowAddFunc) (options : Options)
    : option (option Default * Z * option error) :=
  match items with
  | None => Some (None, 0, Some (ErrItemsNil "items is Nil"))
  | Some _ =>
      let props := EmptyMutable f options in
      match AddMap props items allow options with
      | None => None
      | Some (props', (count, err)) => Some (Some props', count, err)
      end
  end.

(** The slice expression [b[lo:hi]]; out of range it panics. *)
Definition slice (b : bytes) (lo hi : Z) : option bytes :=
  if (0 <=? lo) && (lo <=? hi) && (hi <=? len b)
  then Some (firstn (Z.to_nat (hi - lo)) (skipn (Z.to_nat lo) b))
  else None.

(** The three local variables of [fromYAMLFrontMatter] that the scanning
    loop sets. *)
Record scanState := {
  insideFrontMatter : bool;
  yamlStartIndex : Z;
  yamlEndIndex : Z }.

Definition delimiter : bytes := B "---".

(** The scanning loop of [fromYAMLFrontMatter]. [b] is the input, [buf] the
    unread part of the buffer, so that [len b - len buf] is
    [len(b) - buf.Len()]. Every turn of the loop costs one unit of [fuel];
    [None] means that the fuel ran out. [ReadString] returns no error other
    than [io.EOF], so the loop has no other error exit. *)
Fixpoint scanLoop (fuel : nat) (b buf : bytes) (st : scanState) : option scanState :=
  match fuel with
  | O => None
  | S fuel' =>
      let '(line, buf', eof) := bytes_.ReadString newline buf in
      if eof then Some st
      else if bool_decide (strings.TrimSpace line ≠ delimiter) then scanLoop fuel' b buf' st
      else if negb (insideFrontMatter st)
      then scanLoop fuel' b buf'
             {| insideFrontMatter := true;
                yamlStartIndex := len b - len buf';
                yamlEndIndex := yamlEndIndex st |}
      else Some {| insideFrontMatter := insideFrontMatter st;
                   yamlStartIndex := yamlStartIndex st;
                   yamlEndIndex := len b - len buf' |}
  end.

(** The loop on a fresh buffer over [b], with the three variables at their
    zero values. One more unit of fuel than [b] has bytes always suffices
    (lemma [scan_total]). *)
Definition scan (b : bytes) : option scanState :=
  scanLoop (S (length b)) b b
    {| insideFrontMatter := false; yamlStartIndex := 0; yamlEndIndex := 0 |}.

(** The loop with the buffer at [buf], with the fuel that [scan] gives. *)
Definition scanFrom (b buf : bytes) (st : scanState) : option scanState :=
  scanLoop (S (length buf)) b buf st.

(** What [fromYAMLFrontMatter] returns: body, collection, count, error. *)
Definition Extraction : Type := option bytes * option Default * Z * option error.

Section FrontMatter.

(** [yaml.Unmarshal] of gopkg.in/yaml.v2 into a [map[string]string] and
    into a [map[string]interface{}]: the entries of the filled map, in the
    order in which the map is later ranged over, or [None] when decoding
    fails. *)
Variable UnmarshalText : bytes -> option (list (string * string)).
Variable UnmarshalAny : bytes -> option (list (string * any)).

Definition fromYAMLFrontMatter (f : DefaultPropertiesFactory) (b : bytes)
    (smartParseFM : bool) (allow : option AllowAddFunc)
    (allowText : option AllowAddTextFunc) (options : Options) : option Extraction :=
  match scan b with
  | None => None
  | Some st =>
      if negb (insideFrontMatter st) then Some (Some b, None, 0, None)
      else if insideFrontMatter st && (yamlEndIndex st =? 0)
      then Some (None, None, 0,
                 Some (ErrFrontMatter (insideFrontMatter st) (yamlStartIndex st)
                         (yamlEndIndex st)))
      else
        (* var err error: the variable that the last line returns; the
           two branches below declare their own err and assign that one *)
        let err : option error := None in
        match slice b (yamlStartIndex st) (yamlEndIndex st) with
        | None => None
        | Some payload =>
            if smartParseFM then
              match UnmarshalText payload with
              | None => Some (None, None, 0, None)
              | Some items =>
                  let props := EmptyMutable f options in
                  match AddTextMap props (Some items) allowText options with
                  | None => None
                  | Some (props', (count, _)) =>
                      match slice b (yamlEndIndex st) (len b) with
                      | None => None
                      | Some rest => Some (bytes_.TrimSpace rest, Some props', count, err)
                      end
                  end
              end
            else
              match UnmarshalAny payload with
              | None => Some (None, None, 0, None)
              | Some items =>
                  match fromStringMap f (Some items) allow options with
                  | None => None
                  | Some (props, count, _) =>
                      match slice b (yamlEndIndex st) (len b) with
                      | None => None
                      | Some rest => Some (bytes_.TrimSpace rest, props, count, err)
                      end
                  end
              end
        end
  end.

Definition MutableFromFrontMatter (f : DefaultPropertiesFactory) (content : bytes)
    (smartParseFM : bool) (allow : option AllowAddFunc)
    (allowText : option AllowAddTextFunc) (options : Options) : option Extraction :=
  fromYAMLFrontMatter f content smartParseFM allow allowText options.

End FrontMatter.

(** [ThePropertiesFactory = &DefaultPropertiesFactory{PropFactory: ThePropertyFactory}] *)
Definition ThePropertiesFactory (ParseAny : string -> option Time) : DefaultPropertiesFactory :=
  {| PropFactory := asPropertyFactory ParseAny ThePropertyFactory |}.

(** ** Lines of a buffer *)

(** The lines of [b]: every line keeps its line feed; a last line without
    line feed is kept too. *)
Fixpoint splitLines (b : bytes) : list bytes :=
  match b with
  | [] => []
  | c :: rest =>
      if bool_decide (c = newline) then [c] :: splitLines rest
      else
        match splitLines rest with
        | [] => [[c]]
        | l :: ls => (c :: l) :: ls
        end
  end.

(** A complete line: some bytes other than line feed, then a line feed. *)
Definition isLine (l : bytes) : Prop :=
  ∃ body, l = body ++ [newline] ∧ newline ∉ body.

(** A line whose trimmed content is exactly the delimiter. *)
Definition isDelimiter (l : bytes) : Prop := strings.TrimSpace l = delimiter.

Definition plainLine (l : bytes) : Prop := isLine l ∧ ¬ isDelimiter l.
Definition delimiterLine (l : bytes) : Prop := isLine l ∧ isDelimiter l.

(** ** Notions used in the statements *)

(** The kind that the specification gives to a text: flag, else date and
    time, else base-10 64-bit integer, else text. *)
Definition classify (ParseAny : string -> option Time) (value : string) : any :=
  match strconv.ParseBool value with
  | Some flag => VBool flag
  | None =>
      match ParseAny value with
      | Some dateTime => VTime dateTime
      | None =>
          match strconv.ParseInt10 value with
          | Some number => VInt64 number
          | None => VString value
          end
      end
  end.

(** The values that [FromAny] has no case for. *)
Definition unknownKind (v : any) : Prop :=
  match v with
  | VNil | VSized _ _ | VOpaque _ _ => True
  | _ => False
  end.

(** The values that go through [FromAny] and [AnyValue] unchanged. *)
Definition roundTrips (v : any) : Prop :=
  match v with
  | VString _ | VStrings _ | VBool _ | VInt64 _ | VTime _ => True
  | _ => False
  end.

(** An option as a creator of properties: a creator function, else a
    creator handler through its [FromAny]. *)
Definition asCreator (o : Option_) : option CustomCreatorFunc :=
  match asCustomCreatorFunc o with
  | Some fn => Some fn
  | None => handlerFromAny <$> asCustomCreatorHandler o
  end.

(** The first creator among the options, if there is one. *)
Definition firstCreator (options : Options) : option CustomCreatorFunc :=
  head (omap asCreator options).


(** A policy that vetoes every insertion: it never allows and never fails. *)
Definition vetoes (policy : AddPropertyPolicy) : Prop :=
  ∀ prop optionTags,
    accepted (AllowAdd policy prop optionTags) = false ∧
    failure (AllowAdd policy prop optionTags) = None.

(** The first error that a factory function makes on the entries of a map. *)
Definition firstFailure {V} (make : string -> V -> Result) (items : list (string * V))
    : option error :=
  head (omap (λ item, failure (make item.1 item.2)) items).

(** ** properties.go: enumeration *)

(** [sync.Map.Range]: [f] is called on the entries one after the other until
    it returns false. [entries] lists the entries in the order of the
    traversal; [s] is the state of the variables that the closure [f]
    captures and assigns. *)
Fixpoint syncRange {S : Type} (f : string -> Property -> S -> S * bool)
    (entries : list (string * Property)) (s : S) : S :=
  match entries with
  | [] => s
  | (key, value) :: rest =>
      let '(s', keepGoing) := f key value s in
      if keepGoing then syncRange f rest s' else s'
  end.

(** [MapAssignFunc]: the function is given the destination map, which it
    may assign to, and returns the map as it leaves it. *)
Definition MapAssignFunc := Property -> gmap string any -> gmap string any * bool.

Definition DefaultMapAssign : MapAssignFunc :=
  fun p dest => (Copy p dest, true).

Section Enumeration.

(** The order in which [sync.Map.Range] visits the entries of a map is not
    specified; [rangeOrder m] is the order that a traversal of [m] takes.
    Every call traverses in an order of its own: a statement about two
    calls gives each call its own [rangeOrder]. *)
Variable rangeOrder : gmap string Property -> list (string * Property).

Definition List (p : Default) : list Property :=
  syncRange (fun _ value result => (result ++ [value], true))
    (rangeOrder (syncMap p)) [].

(** [Map] returns the count; the destination map is returned with it. *)
Definition Map (p : Default) (dest : gmap string any) (assign : MapAssignFunc)
    : gmap string any * Z :=
  syncRange
    (fun _ property '(dest, count) =>
       let '(dest', keepGoing) := assign property dest in
       ((dest', if keepGoing then uint (count + 1) else count), keepGoing))
    (rangeOrder (syncMap p)) (dest, 0).

Definition Filter (p : Default) (filter : Property -> bool) : list Property :=
  syncRange (fun _ property result =>
               (if filter property then result ++ [property] else result, true))
    (rangeOrder (syncMap p)) [].

(** [Range]: the visitor [do] is a closure; [s] is the state it works on. *)
Definition Range {S : Type} (p : Default) (do : Property -> S -> S * bool) (s : S) : S :=
  syncRange (fun _ value s => do value s) (rangeOrder (syncMap p)) s.

End Enumeration.

(** A traversal order visits every entry of the map once. *)
Definition visitsAll (rangeOrder : gmap string Property -> list (string * Property)) : Prop :=
  ∀ m, rangeOrder m ≡ₚ map_to_list m.

(** ** factory.go: collections from maps *)

Definition ImmutableFromStringMap (f : DefaultPropertiesFactory) (items : GoMap any)
    (allow : option AllowAddFunc) (options : Options)
    : option (option Default * Z * option error) :=
  fromStringMap f items allow options.

Definition MutableFromStringMap (f : DefaultPropertiesFactory) (items : GoMap any)
    (allow : option AllowAddFunc) (options : Options)
    : option (option Default * Z * option error) :=
  fromStringMap f items allow options.

(** ** Further notions used in the statements *)

(** The property that the type switch of [FromAny] builds for a value of a
    recognized kind. *)
Definition propertyOf (name : string) (v : any) : option Property :=
  match v with
  | VString value => Some (DefaultTextProperty name value)
  | VStrings value => Some (DefaultTextListProperty name value)
  | VTime value => Some (DefaultDateTimeProperty name value)
  | VBool value => Some (DefaultFlagProperty name value)
  | VInt value => Some (DefaultCardinalProperty name (int64 value))
  | VInt64 value => Some (DefaultCardinalProperty name value)
  | _ => None
  end.

(** A factory without after-create hook. *)
Definition hookFree (f : DefaultPropertyFactory) : Prop :=
  fAfterCreate f = None ∧ fAfterCreateHookFunc f = None.

(** A value that a [uint] can hold. *)
Definition isUint (n : Z) : Prop := 0 <= n < 2 ^ 64.

(** The counter agrees with the number of entries. *)
Definition counted (p : Default) : Prop :=
  isUint (Size p) ∧ Size p = Z.of_nat (size (syncMap p)).

(** The keys of a Go map are distinct. *)
Definition distinctKeys {V} (items : list (string * V)) : Prop := NoDup items.*1.

(** ** Stand-ins for the imported libraries, used in examples only *)

(** A date parser that knows one text. *)
Definition sampleParseAny (s : string) : option Time :=
  if bool_decide (s = "2006-01-02T15:04:05Z07:00"%string)
  then Some (mkTime 1136214245000000000 0)
  else None.

(** A decoder that decodes [expected] to [items] and nothing else. *)
Definition onlyDecodes {V} (expected : bytes) (items : list (string * V))
    (payload : bytes) : option (list (string * V)) :=
  if bool_decide (payload = expected) then Some items else None.

(** Decoders that know the documents of the examples. *)
Definition sampleUnmarshalText (payload : bytes) : option (list (string * string)) :=
  if bool_decide (payload = unlines ["a: 1"; "---"]) then Some [("a", "1")]%string
  else if bool_decide (payload = unlines ["a: 1"; "b: x"; "---"])
  then Some [("a", "1"); ("b", "x")]%string
  else if bool_decide (payload = unlines ["description: test description"; "number: 221";
                                          "flag: true"; "date: 2006-01-02T15:04:05Z07:00";
                                          "---"])
  then Some [("description", "test description"); ("number", "221"); ("flag", "true");
             ("date", "2006-01-02T15:04:05Z07:00")]%string
  else None.

Definition sampleUnmarshalAny (payload : bytes) : option (list (string * any)) :=
  if bool_decide (payload = unlines ["a: 1"; "---"]) then Some [("a"%string, VInt 1)]
  else if bool_decide (payload = unlines ["description: test description"; "number: 221";
                                          "flag: true"; "date: 2006-01-02T15:04:05Z07:00";
                                          "---"])
  then Some [("description"%string, VString "test description");
             ("number"%string, VInt 221); ("flag"%string, VBool true);
             ("date"%string, VString "2006-01-02T15:04:05Z07:00")]
  else None.

(** A document with front matter [a: 1] and body [body]. *)
Definition sampleDocument : bytes := unlines ["---"; "a: 1"; "---"; "body"].

(** The package's factory of collections, over the sample date parser. *)
Definition sampleFactory : DefaultPropertiesFactory := ThePropertiesFactory sampleParseAny.

(** An after-create hook that fails on the property named [b]. *)
Definition failOnB : AfterCreateHookFunc :=
  fun property _ =>
    if bool_decide (Name property = "b"%string)
    then (None, false, Some (ErrHook "no property b"))
    else (Some property, true, None).

Definition failOnBFactory : DefaultPropertiesFactory :=
  {| PropFactory :=
       asPropertyFactory sampleParseAny
         {| fCustomCreatorFunc := None; fCustomCreator := None;
            fAfterCreateHookFunc := Some failOnB; fAfterCreate := None |} |}.

(** A creator that declines every value, and one that accepts every value. *)
Definition declines : CustomCreatorFunc := fun _ _ _ => (None, false, None).


(** The collection after [a: 1] went in and [b: x] failed. *)
Definition afterOneOfTwo : Default :=
  {| pf := PropFactory failOnBFactory;
     syncMap := {[ "a"%string := DefaultFlagProperty "a" true ]};
     syncMapSize := 1; addPolicy := None; addEvent := None; notified := [] |}.

(** The veto policy, and an empty collection of the package's factory that
    is configured with it. *)
Definition vetoAll : AddPropertyPolicy :=
  {| AllowAdd := fun prop _ => (prop, false, None) |}.

Definition vetoCollection : Default :=
  EmptyMutable sampleFactory [policyOption "veto" vetoAll].

(** A collection that holds the text property [a]. *)
Definition holdsA : Default :=
  {| pf := PropFactory sampleFactory;
     syncMap := {[ "a"%string := DefaultTextProperty "a" "x" ]};
     syncMapSize := 1; addPolicy := None; addEvent := None; notified := [] |}.

(** The documents of [properties_test.go]. *)
Definition validFrontMatter : bytes :=
  unlines [""; "---"; "description: test description"; "number: 221"; "flag: true";
           "date: 2006-01-02T15:04:05Z07:00"; "---"; "test body"].

Definition noFrontMatter : bytes := B "test body without front matter".

Definition invalidFrontMatter1 : bytes :=
  unlines [""; "---"; "description: test description"; ""; "test body"].

(** What a test reads from an extraction: body, count, error, and the
    values of the four properties that the tests look up. *)
Definition observed (r : option Extraction)
    : option (option bytes * Z * option error * list (option any)) :=
  match r with
  | Some (body, Some props, count, err) =>
      Some (body, count, err,
            map (λ name, AnyValue <$> (Named props name).1)
              ["description"; "number"; "flag"; "date"]%string)
  | Some (body, None, count, err) => Some (body, count, err, [])
  | None => None
  end.

(** ** Further stand-ins, used in examples only *)

(** A policy that stores every property under the name [renamed]. *)
Definition renameAll : AddPropertyPolicy :=
  {| AllowAdd := fun prop _ =>
       (match prop with
        | Some q => Some (CustomProperty "renamed" (AnyValue q))
        | None => None
        end, true, None) |}.

Definition renamingCollection : Default :=
  EmptyMutable sampleFactory [policyOption "rename" renameAll].

(** An empty collection that notifies the event sink [log]. *)
Definition notifyingCollection : Default :=
  EmptyMutable sampleFactory [eventOption "log" {| eventName := "log" |}].

(** An allow function that refuses every property and reports an error. *)
Definition refuseAll : AllowAddFunc :=
  fun _ _ createdProp => (createdProp, false, Some (ErrHook "refused")).

(** ** Sequences of mutations *)

(** The calls that can change a collection. *)
Inductive Mutation :=
| MutAddProperty (given : option Property) (options : Options)
| MutAddChecked (name : string) (value : any) (allow : option AllowAddFunc)
    (options : Options)
| MutAddParsedChecked (name text : string) (allow : option AllowAddTextFunc)
    (options : Options)
| MutAddMap (items : GoMap any) (allow : option AllowAddFunc) (options : Options)
| MutAddTextMap (items : GoMap string) (allow : option AllowAddTextFunc)
    (options : Options)
| MutDelete (name : PropertyName) (options : Options).

(** The collection after one call; [None] when the call panics. *)
Definition mutate (p : Default) (m : Mutation) : option Default :=
  match m with
  | MutAddProperty given options => fst <$> AddProperty p given options
  | MutAddChecked name value allow options => fst <$> AddChecked p name value allow options
  | MutAddParsedChecked name text allow options =>
      fst <$> AddParsedChecked p name text allow options
  | MutAddMap items allow options => fst <$> AddMap p items allow options
  | MutAddTextMap items allow options => fst <$> AddTextMap p items allow options
  | MutDelete name options => Some (Delete p name options).1
  end.

Fixpoint mutateAll (p : Default) (ms : list Mutation) : option Default :=
  match ms with
  | [] => Some p
  | m :: ms' =>
      match mutate p m with
      | Some p' => mutateAll p' ms'
      | None => None
      end
  end.

(** The number of properties that a call offers for storage. *)
Definition offered (m : Mutation) : Z :=
  match m with
  | MutAddMap (Some items) _ _ => len items
  | MutAddTextMap (Some items) _ _ => len items
  | MutAddMap None _ _ | MutAddTextMap None _ _ | MutDelete _ _ => 0
  | _ => 1
  end.

Fixpoint offeredAll (ms : list Mutation) : Z :=
  match ms with
  | [] => 0
  | m :: ms' => offered m + offeredAll ms'
  end.

(** Every entry is stored under the name of its property, and the counter
    is a [uint] that is not below the number of entries. *)
Definition wellKept (p : Default) : Prop :=
  (∀ key prop, syncMap p !! key = Some prop → Name prop = key) ∧
  isUint (Size p) ∧
  Z.of_nat (size (syncMap p)) <= Size p.

(** What the steps of a bulk insertion keep. *)
Definition keeps (p p' : Default) (n : Z) : Prop :=
  wellKept p' ∧ Size p' <= Size p + n ∧
  pf p' = pf p ∧ addPolicy p' = addPolicy p ∧ addEvent p' = addEvent p.

(** The collection after [a] was added twice. *)
Definition twiceA : Default :=
  {| pf := PropFactory sampleFactory;
     syncMap := {[ "a"%string := DefaultTextProperty "a" "y" ]};
     syncMapSize := 2; addPolicy := None; addEvent := None; notified := [] |}.

(** The entries that [FromAny] makes of the entries of a map. *)
Definition builtEntries (items : list (string * any)) : list (string * Property) :=
  omap (λ item, (λ prop, (item.1, prop)) <$> propertyOf item.1 item.2) items.

(** An allow function that is nil or lets every property through as it is. *)
Definition allowsAll (allow : option AllowAddFunc) : Prop :=
  allow = None ∨ allow = Some DefaultAllowAdd.

(** The entries of a text map, each text replaced by the value that
    [FromText] makes of it. *)
Definition classifyAll (ParseAny : string -> option Time) (items : list (string * string))
    : list (string * any) :=
  map (λ item, (item.1, classify ParseAny item.2)) items.

(** A collection over a [DefaultPropertyFactory]. *)
Definition collectionOf (ParseAny : string -> option Time) (f : DefaultPropertyFactory)
    (options : Options) : Default :=
  newDefaultProperties (asPropertyFactory ParseAny f) options.

(** A value of a kind that [FromAny] has a case for. *)
Definition recognized (item : string * any) : Prop := is_Some (propertyOf item.1 item.2).

(** The value that [AnyValue] returns for the property made of a value: an
    [int] becomes an [int64], every other recognized value stays. *)
Definition normalize (v : any) : any :=
  match v with
  | VInt n => VInt64 (int64 n)
  | _ => v
  end.

(** The name to value map that a Go map with the given entries is. *)
Definition asMap (items : list (string * any)) : gmap string any :=
  list_to_map (map (λ item, (item.1, normalize item.2)) items).

(** The collection that holds only the cardinal property [a]. *)
Definition holdsCardinalA : Default :=
  {| pf := PropFactory sampleFactory;
     syncMap := {[ "a"%string := DefaultCardinalProperty "a" 1 ]};
     syncMapSize := 1; addPolicy := None; addEvent := None; notified := [] |}.

(** A document whose front matter has a nested map. *)
Definition nestedDocument : bytes := unlines ["---"; "a: 1"; "m: {}"; "---"; "body"].

Definition nestedEntries : list (string * any) :=
  [("a"%string, VInt 1); ("m"%string, VOpaque "map[interface {}]interface {}" "map[]")].

(** The zero values of the three variables of the scanning loop. *)
Definition scanStart : scanState :=
  {| insideFrontMatter := false; yamlStartIndex := 0; yamlEndIndex := 0 |}.

(** Options that hold neither a policy nor a creator. *)
Definition withoutHooks (options : Options) : Prop :=
  last (omap asAddPropertyPolicy options) = None ∧ firstCreator options = None.

(** A factory with neither hook nor creator, like [ThePropertyFactory]. *)
Definition plainFactory (f : DefaultPropertyFactory) : Prop :=
  hookFree f ∧ fCustomCreator f = None ∧ fCustomCreatorFunc f = None.

(** A collection with two entries, and the traversal that goes the other
    way round. *)
Definition holdsAB : Default :=
  {| pf := PropFactory sampleFactory;
     syncMap := {[ "a"%string := DefaultTextProperty "a" "x";
                   "b"%string := DefaultFlagProperty "b" true ]};
     syncMapSize := 2; addPolicy := None; addEvent := None; notified := [] |}.

Definition backwards (m : gmap string Property) : list (string * Property) :=
  reverse (map_to_list m).

Definition isFlag (prop : Property) : bool :=
  match prop with
  | DefaultFlagProperty _ _ => true
  | _ => false
  end.

(** * Theorems *)

(** Tactics for concrete buffers. *)
Ltac by_computation := apply (bool_decide_unpack _); vm_compute; exact I.

Ltac concrete_line :=
  lazymatch goal with
  | |- isLine ?l =>
      exists (removelast l); split; [vm_compute; reflexivity | by_computation]
  | |- isDelimiter _ => vm_compute; reflexivity
  | |- ¬ isDelimiter _ => vm_compute; discriminate
  | |- plainLine _ => split; concrete_line
  | |- delimiterLine _ => split; concrete_line
  end.

Ltac concrete_lines := repeat (first [apply Forall_nil_2 | apply Forall_cons_2; [concrete_line|]]).

(** ** The standard library on examples *)

Example TrimSpace_ascii :
  strings.TrimSpace (B "  ---" ++ [newline]) = B "---".
Proof. vm_compute. reflexivity. Qed.

(* NBSP before, U+2003 after *)
Example TrimSpace_unicode :
  strings.TrimSpace ([xc2; xa0] ++ B "a b" ++ [xe2; x80; x83; x0d]) = B "a b".
Proof. vm_compute. reflexivity. Qed.

(* a lone continuation byte is not white space *)
Example TrimSpace_invalid :
  strings.TrimSpace ([x20; xa0] ++ B "a" ++ [xa0; x20]) = [xa0] ++ B "a" ++ [xa0].
Proof. vm_compute. reflexivity. Qed.

Example ParseInt_examples :
  strconv.ParseInt10 "221" = Some 221 /\
  strconv.ParseInt10 "-9223372036854775808" = Some (- 2 ^ 63) /\
  strconv.ParseInt10 "9223372036854775808" = None /\
  strconv.ParseInt10 "+7" = Some 7 /\
  strconv.ParseInt10 "1_000" = None /\
  strconv.ParseInt10 "" = None /\
  strconv.ParseInt10 "-" = None.
Proof. vm_compute. repeat split; reflexivity. Qed.

(** ** Reading lines *)

Lemma ReadString_spec (buf line rest : bytes) (eof : bool) :
  bytes_.ReadString newline buf = (line, rest, eof) →
  buf = line ++ rest ∧
  (eof = true → rest = [] ∧ newline ∉ line) ∧
  (eof = false → isLine line).
Proof.
  revert line rest eof. induction buf as [|c buf IH]; intros line rest eof; simpl.
  - intros [= <- <- <-]. split; [done|]. split; [|done].
    intros _. split; [done|]. apply not_elem_of_nil.
  - case_bool_decide as Hc.
    + intros [= <- <- <-]. split; [done|]. split; [done|].
      intros _. exists []. subst c. split; [done|]. apply not_elem_of_nil.
    + destruct (bytes_.ReadString newline buf) as [[line' rest'] eof'] eqn:E.
      intros [= <- <- <-]. destruct (IH _ _ _ eq_refl) as (Hb & He & Hl).
      split; [by rewrite Hb at 1|]. split.
      * intros ->. destruct (He eq_refl) as [-> Hn]. split; [done|].
        rewrite elem_of_cons. intros [H|H]; [by subst|done].
      * intros ->. destruct (Hl eq_refl) as (body & -> & Hn).
        exists (c :: body). split; [done|].
        rewrite elem_of_cons. intros [H|H]; [by subst|done].
Qed.

Lemma ReadString_line (l rest : bytes) :
  isLine l → bytes_.ReadString newline (l ++ rest) = (l, rest, false).
Proof.
  intros (body & -> & Hn). induction body as [|c body IH]; simpl.
  - reflexivity.
  - rewrite not_elem_of_cons in Hn. destruct Hn as [Hc Hn].
    rewrite bool_decide_eq_false_2 by done. by rewrite (IH Hn).
Qed.

Lemma ReadString_no_newline (buf : bytes) :
  newline ∉ buf → bytes_.ReadString newline buf = (buf, [], true).
Proof.
  induction buf as [|c buf IH]; simpl; [done|].
  rewrite not_elem_of_cons. intros [Hc Hn].
  rewrite bool_decide_eq_false_2 by done. by rewrite (IH Hn).
Qed.

Lemma isLine_nonempty (l : bytes) : isLine l → (0 < length l)%nat.
Proof. intros (body & -> & _). rewrite length_app. simpl. lia. Qed.

Lemma splitLines_ReadString (buf line rest : bytes) :
  bytes_.ReadString newline buf = (line, rest, false) →
  splitLines buf = line :: splitLines rest.
Proof.
  revert line rest. induction buf as [|c buf IH]; intros line rest; simpl; [done|].
  case_bool_decide as Hc.
  - by intros [= <- <-].
  - destruct (bytes_.ReadString newline buf) as [[line' rest'] eof'] eqn:E.
    intros [= <- <- ->]. by rewrite (IH _ _ eq_refl).
Qed.

(** ** The scanning loop *)

(** With more fuel than unread bytes the loop does not depend on the fuel. *)
Lemma scanLoop_fuel (fuel1 fuel2 : nat) (b buf : bytes) (st : scanState) :
  (length buf < fuel1)%nat → (length buf < fuel2)%nat →
  scanLoop fuel1 b buf st = scanLoop fuel2 b buf st.
Proof.
  revert fuel2 buf st. induction fuel1 as [|fuel1 IH]; intros fuel2 buf st H1 H2; [lia|].
  destruct fuel2 as [|fuel2]; [lia|]. simpl.
  destruct (bytes_.ReadString newline buf) as [[line rest] eof] eqn:E.
  destruct eof; [done|].
  destruct (ReadString_spec _ _ _ _ E) as (Hb & _ & Hl).
  specialize (Hl eq_refl). apply isLine_nonempty in Hl.
  assert (length rest < length buf)%nat by (rewrite Hb, length_app; lia).
  case_bool_decide; [apply IH; lia|].
  destruct (negb (insideFrontMatter st)); [apply IH; lia|done].
Qed.

Lemma scan_scanFrom (b : bytes) :
  scan b = scanFrom b b
             {| insideFrontMatter := false; yamlStartIndex := 0; yamlEndIndex := 0 |}.
Proof. reflexivity. Qed.

(** One turn of the loop on a complete line. *)
Lemma scanFrom_line (b l rest : bytes) (st : scanState) :
  isLine l →
  scanFrom b (l ++ rest) st =
    if bool_decide (strings.TrimSpace l ≠ delimiter) then scanFrom b rest st
    else if negb (insideFrontMatter st)
    then scanFrom b rest {| insideFrontMatter := true;
                            yamlStartIndex := len b - len rest;
                            yamlEndIndex := yamlEndIndex st |}
    else Some {| insideFrontMatter := insideFrontMatter st;
                 yamlStartIndex := yamlStartIndex st;
                 yamlEndIndex := len b - len rest |}.
Proof.
  intros Hl. unfold scanFrom at 1. cbn [scanLoop].
  rewrite (ReadString_line _ _ Hl). apply isLine_nonempty in Hl.
  assert (length rest < length (l ++ rest))%nat by (rewrite length_app; lia).
  case_bool_decide; [apply scanLoop_fuel; lia|].
  destruct (negb (insideFrontMatter st)); [apply scanLoop_fuel; lia|done].
Qed.

(** The loop stops at the end of the buffer when no complete line is left. *)
Lemma scanFrom_eof (b buf : bytes) (st : scanState) :
  newline ∉ buf → scanFrom b buf st = Some st.
Proof.
  intros Hn. unfold scanFrom. cbn [scanLoop].
  by rewrite (ReadString_no_newline _ Hn).
Qed.

(** Lines that are no delimiters are skipped. *)
Lemma scanFrom_plain (b : bytes) (ls : list bytes) (rest : bytes) (st : scanState) :
  Forall plainLine ls → scanFrom b (concat ls ++ rest) st = scanFrom b rest st.
Proof.
  induction 1 as [|l ls [Hl Hd] _ IH]; [done|].
  cbn [concat]. rewrite <- app_assoc, (scanFrom_line _ _ _ _ Hl).
  by rewrite bool_decide_eq_true_2.
Qed.

(** A buffer without complete delimiter line leaves the state as it is. *)
Lemma scanFrom_no_delimiter (b buf : bytes) (st : scanState) :
  Forall (λ l, ¬ isDelimiter l) (splitLines buf) → scanFrom b buf st = Some st.
Proof.
  remember (length buf) as n eqn:Hn. revert buf Hn st.
  induction n as [n IH] using lt_wf_ind. intros buf -> st Hall.
  destruct (bytes_.ReadString newline buf) as [[line rest] eof] eqn:E.
  destruct (ReadString_spec _ _ _ _ E) as (Hb & He & Hl). destruct eof.
  - unfold scanFrom. cbn [scanLoop]. by rewrite E.
  - specialize (Hl eq_refl). rewrite (splitLines_ReadString _ _ _ E) in Hall.
    apply Forall_cons in Hall as [Hd Hall].
    rewrite Hb, (scanFrom_line _ _ _ _ Hl), bool_decide_eq_true_2 by done.
    apply isLine_nonempty in Hl.
    apply (IH (length rest)); [rewrite Hb, length_app; lia|done|done].
Qed.

(** The loop always ends: [scan] never runs out of fuel. *)
Lemma scanFrom_total (b buf : bytes) (st : scanState) : is_Some (scanFrom b buf st).
Proof.
  remember (length buf) as n eqn:Hn. revert buf Hn st.
  induction n as [n IH] using lt_wf_ind. intros buf -> st.
  destruct (bytes_.ReadString newline buf) as [[line rest] eof] eqn:E.
  destruct (ReadString_spec _ _ _ _ E) as (Hb & He & Hl). destruct eof.
  - unfold scanFrom. cbn [scanLoop]. rewrite E. by eexists.
  - specialize (Hl eq_refl). rewrite Hb, (scanFrom_line _ _ _ _ Hl).
    apply isLine_nonempty in Hl.
    assert (length rest < length buf)%nat by (rewrite Hb, length_app; lia).
    case_bool_decide; [by eapply IH|].
    destruct (negb (insideFrontMatter st)); [by eapply IH|by eexists].
Qed.

Lemma scan_total (b : bytes) : is_Some (scan b).
Proof. apply scanFrom_total. Qed.

(** ** Slices *)

Lemma len_app {A} (x y : list A) : len (x ++ y) = len x + len y.
Proof. unfold len. rewrite length_app. lia. Qed.

Lemma len_nonneg {A} (x : list A) : 0 <= len x.
Proof. unfold len. lia. Qed.

Lemma slice_middle (x y z : bytes) :
  slice (x ++ y ++ z) (len x) (len x + len y) = Some y.
Proof.
  unfold slice. rewrite !len_app.
  pose proof (len_nonneg x). pose proof (len_nonneg y). pose proof (len_nonneg z).
  assert ((0 <=? len x) && (len x <=? len x + len y)
            && (len x + len y <=? len x + (len y + len z)) = true) as ->
    by (rewrite !andb_true_iff, !Z.leb_le; lia).
  f_equal. unfold len.
  replace (Z.of_nat (length x) + Z.of_nat (length y) - Z.of_nat (length x))
    with (Z.of_nat (length y)) by lia.
  rewrite !Nat2Z.id, drop_app_length, take_app_length. done.
Qed.

Lemma slice_suffix (x z : bytes) : slice (x ++ z) (len x) (len (x ++ z)) = Some z.
Proof.
  pose proof (slice_middle x z []) as H. rewrite app_nil_r in H.
  by rewrite len_app.
Qed.

(** ** The two indices *)

(** Both delimiters present: the start index is the offset just after the
    opening delimiter line, the end index the offset just after the closing
    delimiter line. *)
Lemma scan_framed (ls1 : list bytes) (open : bytes) (ls2 : list bytes) (close rest : bytes) :
  Forall plainLine ls1 → delimiterLine open →
  Forall plainLine ls2 → delimiterLine close →
  scan (concat ls1 ++ open ++ concat ls2 ++ close ++ rest) =
    Some {| insideFrontMatter := true;
            yamlStartIndex := len (concat ls1 ++ open);
            yamlEndIndex := len (concat ls1 ++ open ++ concat ls2 ++ close) |}.
Proof.
  intros H1 [Ho Hod] H2 [Hc Hcd]. rewrite scan_scanFrom.
  rewrite (scanFrom_plain _ _ _ _ H1), (scanFrom_line _ _ _ _ Ho).
  rewrite bool_decide_eq_false_2 by (intros H; by apply H). cbn [negb insideFrontMatter].
  rewrite (scanFrom_plain _ _ _ _ H2), (scanFrom_line _ _ _ _ Hc).
  rewrite bool_decide_eq_false_2 by (intros H; by apply H).
  cbn [negb insideFrontMatter yamlStartIndex]. do 2 f_equal.
  - rewrite !len_app. lia.
  - rewrite !len_app. lia.
Qed.


(** ** Front matter: the general equations *)

Section FrontMatterFacts.

Variable UnmarshalText : bytes -> option (list (string * string)).
Variable UnmarshalAny : bytes -> option (list (string * any)).
Variable f : DefaultPropertiesFactory.
Variables (allow : option AllowAddFunc) (allowText : option AllowAddTextFunc).
Variable options : Options.

Local Abbreviation extract b smart :=
  (fromYAMLFrontMatter UnmarshalText UnmarshalAny f b smart allow allowText options).

Lemma extract_framed (ls1 : list bytes) (open : bytes) (ls2 : list bytes)
    (close rest : bytes) (smart : bool) :
  Forall plainLine ls1 → delimiterLine open →
  Forall plainLine ls2 → delimiterLine close →
  extract (concat ls1 ++ open ++ concat ls2 ++ close ++ rest) smart =
    if smart then
      match UnmarshalText (concat ls2 ++ close) with
      | None => Some (None, None, 0, None)
      | Some items =>
          match AddTextMap (EmptyMutable f options) (Some items) allowText options with
          | None => None
          | Some (props, (count, _)) =>
              Some (bytes_.TrimSpace rest, Some props, count, None)
          end
      end
    else
      match UnmarshalAny (concat ls2 ++ close) with
      | None => Some (None, None, 0, None)
      | Some items =>
          match fromStringMap f (Some items) allow options with
          | None => None
          | Some (props, count, _) => Some (bytes_.TrimSpace rest, props, count, None)
          end
      end.
Proof.
  intros H1 Ho H2 Hc. unfold fromYAMLFrontMatter.
  rewrite (scan_framed _ _ _ _ rest H1 Ho H2 Hc).
  cbn [negb insideFrontMatter yamlStartIndex yamlEndIndex andb].
  assert (0 < len (concat ls1 ++ open ++ concat ls2 ++ close)) as Hpos.
  { destruct Ho as [Ho _]. apply isLine_nonempty in Ho.
    rewrite !len_app. pose proof (len_nonneg (concat ls1)).
    pose proof (len_nonneg (concat ls2)). pose proof (len_nonneg close).
    unfold len at 2. lia. }
  rewrite (proj2 (Z.eqb_neq _ _)) by lia.
  assert (slice (concat ls1 ++ open ++ concat ls2 ++ close ++ rest)
            (len (concat ls1 ++ open))
            (len (concat ls1 ++ open ++ concat ls2 ++ close))
          = Some (concat ls2 ++ close)) as ->.
  { pose proof (slice_middle (concat ls1 ++ open) (concat ls2 ++ close) rest) as H.
    rewrite <- !app_assoc in H. rewrite <- H. f_equal. rewrite !len_app. lia. }
  assert (slice (concat ls1 ++ open ++ concat ls2 ++ close ++ rest)
            (len (concat ls1 ++ open ++ concat ls2 ++ close))
            (len (concat ls1 ++ open ++ concat ls2 ++ close ++ rest))
          = Some rest) as ->.
  { pose proof (slice_suffix (concat ls1 ++ open ++ concat ls2 ++ close) rest) as H.
    by rewrite <- !app_assoc in H. }
  destruct smart.
  - destruct (UnmarshalText _); [|done].
    by destruct (AddTextMap _ _ _ _) as [[? [? ?]]|].
  - destruct (UnmarshalAny _); [|done].
    by destruct (fromStringMap _ _ _ _) as [[[? ?] ?]|].
Qed.

End FrontMatterFacts.

(** ** Front matter: the statements of the specification *)

(** C7. A buffer none of whose lines has the trimmed content [---] comes
    back whole as the body, with no collection, a count of zero and no
    error. *)
Theorem no_delimiter_line_gives_whole_input
    (UnmarshalText : bytes -> option (list (string * string)))
    (UnmarshalAny : bytes -> option (list (string * any)))
    (f : DefaultPropertiesFactory) (b : bytes) (smartParseFM : bool)
    (allow : option AllowAddFunc) (allowText : option AllowAddTextFunc)
    (options : Options) :
  Forall (λ l, ¬ isDelimiter l) (splitLines b) →
  fromYAMLFrontMatter UnmarshalText UnmarshalAny f b smartParseFM allow allowText options
  = Some (Some b, None, 0, None).
Proof.
  intros Hplain. unfold fromYAMLFrontMatter.
  rewrite scan_scanFrom, (scanFrom_no_delimiter _ _ _ Hplain).
  reflexivity.
Qed.

Lemma no_delimiter_line_gives_whole_input_witness :
  Forall (λ l, ¬ isDelimiter l) (splitLines (B "test body without front matter")) ∧
  fromYAMLFrontMatter sampleUnmarshalText sampleUnmarshalAny sampleFactory
    (B "test body without front matter") false None None []
  = Some (Some (B "test body without front matter"), None, 0, None).
Proof.
  assert (Forall (λ l, ¬ isDelimiter l) (splitLines (B "test body without front matter")))
    as H by (vm_compute splitLines; concrete_lines).
  split; [exact H|].
  exact (no_delimiter_line_gives_whole_input sampleUnmarshalText sampleUnmarshalAny
           sampleFactory (B "test body without front matter") false None None [] H).
Defined.






(** C10. With [smartParseFM] set, both delimiter lines present and a block
    that decodes, whatever error [AddTextMap] returns is dropped: the
    extraction returns the trimmed body, the collection as [AddTextMap] left
    it, the count it reached, and no error. *)
Theorem smart_parse_drops_insertion_error
    (UnmarshalText : bytes -> option (list (string * string)))
    (UnmarshalAny : bytes -> option (list (string * any)))
    (f : DefaultPropertiesFactory) (ls1 : list bytes) (open : bytes)
    (ls2 : list bytes) (close rest : bytes)
    (allow : option AllowAddFunc) (allowText : option AllowAddTextFunc)
    (options : Options) (items : list (string * string)) (props : Default)
    (count : Z) (err : option error) :
  Forall plainLine ls1 → delimiterLine open →
  Forall plainLine ls2 → delimiterLine close →
  UnmarshalText (concat ls2 ++ close) = Some items →
  AddTextMap (EmptyMutable f options) (Some items) allowText options
  = Some (props, (count, err)) →
  fromYAMLFrontMatter UnmarshalText UnmarshalAny f
    (concat ls1 ++ open ++ concat ls2 ++ close ++ rest) true allow allowText options
  = Some (bytes_.TrimSpace rest, Some props, count, None).
Proof.
  intros H1 Ho H2 Hc Hu Ha.
  rewrite (extract_framed UnmarshalText UnmarshalAny f allow allowText options
             ls1 open ls2 close rest true H1 Ho H2 Hc).
  by rewrite Hu, Ha.
Qed.

Lemma smart_parse_drops_insertion_error_witness :
  AddTextMap (EmptyMutable failOnBFactory []) (Some [("a", "1"); ("b", "x")]%string) None []
  = Some (afterOneOfTwo, (1, Some (ErrHook "no property b"))) ∧
  fromYAMLFrontMatter sampleUnmarshalText sampleUnmarshalAny failOnBFactory
    (unlines ["---"; "a: 1"; "b: x"; "---"; ""; "body"]) true None None []
  = Some (Some (B "body"), Some afterOneOfTwo, 1, None).
Proof.
  assert (AddTextMap (EmptyMutable failOnBFactory [])
            (Some [("a", "1"); ("b", "x")]%string) None []
          = Some (afterOneOfTwo, (1, Some (ErrHook "no property b")))) as Ha
    by reflexivity.
  split; [exact Ha|].
  refine (smart_parse_drops_insertion_error sampleUnmarshalText sampleUnmarshalAny
            failOnBFactory [] (unlines ["---"]) [unlines ["a: 1"]; unlines ["b: x"]]
            (unlines ["---"]) (unlines [""; "body"]) None None []
            [("a", "1"); ("b", "x")]%string afterOneOfTwo 1
            (Some (ErrHook "no property b")) _ _ _ _ _ Ha).
  - concrete_lines.
  - concrete_line.
  - concrete_lines.
  - concrete_line.
  - vm_compute; reflexivity.
Defined.

(** ** The property factory *)

Lemma int64_id (n : Z) : inInt64 n → int64 n = n.
Proof.
  unfold inInt64, int64, minInt64, maxInt64. intros H.
  rewrite Z.mod_small by lia. lia.
Qed.

(** A factory without after-create hook returns what it has built. *)
Lemma afterSuccessfulCreate_plain (f : DefaultPropertyFactory) (property : Property)
    (options : Options) :
  fAfterCreate f = None → fAfterCreateHookFunc f = None →
  afterSuccessfulCreate f property options = (Some property, true, None).
Proof. intros H1 H2. unfold afterSuccessfulCreate. by rewrite H1, H2. Qed.

(** C1. [FromText] tries flag, date and time, integer and text in this
    order, and gives [FromAny] the value of the first kind that fits. For
    every name, the texts [true] and [false] make a flag property. The text
    [221], which the date parser does not take for a date, makes the
    cardinal property of value 221. What is made goes through the
    after-create hook; a factory without one, such as the package's own,
    returns it as it is. *)
Theorem FromText_precedence (ParseAny : string -> option Time)
    (f : DefaultPropertyFactory) (name : string) (options : Options) :
  ParseAny "221" = None →
  (∀ value, FromText ParseAny f name value options
            = FromAny f name (classify ParseAny value) options) ∧
  FromText ParseAny f name "true" options
  = afterSuccessfulCreate f (DefaultFlagProperty name true) options ∧
  FromText ParseAny f name "false" options
  = afterSuccessfulCreate f (DefaultFlagProperty name false) options ∧
  FromText ParseAny f name "221" options
  = afterSuccessfulCreate f (DefaultCardinalProperty name 221) options ∧
  (fAfterCreate f = None → fAfterCreateHookFunc f = None →
   FromText ParseAny f name "true" options
   = (Some (DefaultFlagProperty name true), true, None) ∧
   FromText ParseAny f name "false" options
   = (Some (DefaultFlagProperty name false), true, None) ∧
   FromText ParseAny f name "221" options
   = (Some (DefaultCardinalProperty name 221), true, None)).
Proof.
  intros Hdate.
  assert (FromText ParseAny f name "true" options
          = afterSuccessfulCreate f (DefaultFlagProperty name true) options) as Htrue
    by reflexivity.
  assert (FromText ParseAny f name "false" options
          = afterSuccessfulCreate f (DefaultFlagProperty name false) options) as Hfalse
    by reflexivity.
  assert (FromText ParseAny f name "221" options
          = afterSuccessfulCreate f (DefaultCardinalProperty name 221) options) as H221.
  { unfold FromText. change (strconv.ParseBool "221") with (@None bool).
    rewrite Hdate. reflexivity. }
  split; [|split; [exact Htrue|split; [exact Hfalse|split; [exact H221|]]]].
  - intros value. unfold FromText, classify.
    destruct (strconv.ParseBool value); [done|].
    destruct (ParseAny value); [done|].
    by destruct (strconv.ParseInt10 value).
  - intros H1 H2. rewrite Htrue, Hfalse, H221.
    by rewrite !afterSuccessfulCreate_plain.
Qed.

Lemma FromText_precedence_witness :
  FromText sampleParseAny ThePropertyFactory "number" "true" []
  = (Some (DefaultFlagProperty "number" true), true, None) ∧
  FromText sampleParseAny ThePropertyFactory "number" "false" []
  = (Some (DefaultFlagProperty "number" false), true, None) ∧
  FromText sampleParseAny ThePropertyFactory "number" "221" []
  = (Some (DefaultCardinalProperty "number" 221), true, None).
Proof.
  exact (proj2 (proj2 (proj2 (proj2
           (FromText_precedence sampleParseAny ThePropertyFactory "number" [] eq_refl))))
           eq_refl eq_refl).
Defined.

(** Flag comes before integer, and date before integer: [1] and [0] are
    flags, and a text of digits that the date parser accepts is a date. *)
Example FromText_order :
  FromText sampleParseAny ThePropertyFactory "n" "1" []
  = (Some (DefaultFlagProperty "n" true), true, None) ∧
  FromText sampleParseAny ThePropertyFactory "n" "0" []
  = (Some (DefaultFlagProperty "n" false), true, None) ∧
  FromText (λ _, Some (mkTime 0 0)) ThePropertyFactory "n" "221" []
  = (Some (DefaultDateTimeProperty "n" (mkTime 0 0)), true, None) ∧
  FromText sampleParseAny ThePropertyFactory "n" "22x" []
  = (Some (DefaultTextProperty "n" "22x"), true, None).
Proof. repeat split. Qed.

Lemma FromAny_unknown (f : DefaultPropertyFactory) (name : string) (v : any)
    (options : Options) :
  unknownKind v → FromAny f name v options = handleUnknownType f name v options.
Proof. by destruct v. Qed.

(** C4, as the code has it. An [int] or an [int64] gives the cardinal
    property of the same number, as a 64-bit integer, accepted and without
    error. A value of any other integer type is given to the unknown-type
    path, which fails when no custom creator is configured. *)
Theorem FromAny_integer (f : DefaultPropertyFactory) (name : string) (n : Z)
    (options : Options) :
  inInt64 n →
  fAfterCreate f = None → fAfterCreateHookFunc f = None →
  fCustomCreator f = None → fCustomCreatorFunc f = None →
  FromAny f name (VInt n) options = (Some (DefaultCardinalProperty name n), true, None) ∧
  FromAny f name (VInt64 n) options = (Some (DefaultCardinalProperty name n), true, None) ∧
  (∀ k, FromAny f name (VSized k n) options = handleUnknownType f name (VSized k n) options) ∧
  (∀ k, FromAny f name (VSized k n) []
        = (None, false, Some (ErrUnknownType name (intKindName k) (VSized k n)))).
Proof.
  intros Hn H1 H2 H3 H4. cbn [FromAny]. rewrite (int64_id _ Hn).
  rewrite !afterSuccessfulCreate_plain by done. repeat split.
  intros k. unfold handleUnknownType. cbn [perCallCreator]. by rewrite H3, H4.
Qed.

Lemma FromAny_integer_witness :
  FromAny ThePropertyFactory "number" (VInt 100) []
  = (Some (DefaultCardinalProperty "number" 100), true, None) ∧
  FromAny ThePropertyFactory "number" (VInt64 100) []
  = (Some (DefaultCardinalProperty "number" 100), true, None) ∧
  (∀ k, FromAny ThePropertyFactory "number" (VSized k 100) []
        = handleUnknownType ThePropertyFactory "number" (VSized k 100) []) ∧
  (∀ k, FromAny ThePropertyFactory "number" (VSized k 100) []
        = (None, false, Some (ErrUnknownType "number" (intKindName k) (VSized k 100)))).
Proof.
  apply (FromAny_integer ThePropertyFactory "number" 100 []); try reflexivity.
  unfold inInt64, minInt64, maxInt64. lia.
Defined.

(** C4, as the specification has it, fails: an [int32] is an integer, is
    well typed, and is not made a cardinal property. *)
Lemma FromAny_int32_is_unknown :
  wellTyped (VSized KInt32 100) ∧
  FromAny ThePropertyFactory "number" (VSized KInt32 100) []
  = (None, false, Some (ErrUnknownType "number" "int32" (VSized KInt32 100))) ∧
  FromAny ThePropertyFactory "number" (VSized KInt32 100) []
  ≠ (Some (DefaultCardinalProperty "number" 100), true, None).
Proof. split; [cbn; lia|]. split; [reflexivity|discriminate]. Qed.

(** C6, as the code has it. With no hook configured, [FromAny] followed by
    [AnyValue] returns a string, a list of strings, a boolean, an [int64]
    and a timestamp exactly as given; the property bears the given name. An
    [int] comes back as the [int64] of the same number. *)
Theorem FromAny_AnyValue_round_trip (f : DefaultPropertyFactory) (name : string)
    (v : any) (options : Options) :
  fAfterCreate f = None → fAfterCreateHookFunc f = None →
  roundTrips v ∨ (∃ n, v = VInt n ∧ inInt64 n) →
  ∃ p, FromAny f name v options = (Some p, true, None) ∧
       Name p = name ∧
       (roundTrips v → AnyValue p = v) ∧
       (∀ n, v = VInt n → AnyValue p = VInt64 n).
Proof.
  intros H1 H2 [Hv|(n & -> & Hn)].
  - destruct v; try done; cbn [FromAny];
      rewrite afterSuccessfulCreate_plain by done;
      (eexists; split; [reflexivity|]); repeat split; intros; done.
  - cbn [FromAny]. rewrite (int64_id _ Hn), afterSuccessfulCreate_plain by done.
    eexists; split; [reflexivity|]. repeat split; [done|].
    by intros ? [= ->].
Qed.

Lemma FromAny_AnyValue_round_trip_witness :
  ∃ p, FromAny ThePropertyFactory "tags" (VStrings ["b"; "a"; "b"]%string) []
       = (Some p, true, None) ∧
       Name p = "tags"%string ∧
       (roundTrips (VStrings ["b"; "a"; "b"]%string)
        → AnyValue p = VStrings ["b"; "a"; "b"]%string) ∧
       (∀ n, VStrings ["b"; "a"; "b"]%string = VInt n → AnyValue p = VInt64 n).
Proof.
  apply (FromAny_AnyValue_round_trip ThePropertyFactory "tags"
           (VStrings ["b"; "a"; "b"]%string) []); try reflexivity.
  left. exact I.
Defined.

(** C6, as the specification has it, fails for an [int]: the value that
    comes back has another dynamic type. *)
Lemma int_comes_back_as_int64 :
  FromAny ThePropertyFactory "number" (VInt 100) []
  = (Some (DefaultCardinalProperty "number" 100), true, None) ∧
  AnyValue (DefaultCardinalProperty "number" 100) = VInt64 100 ∧
  AnyValue (DefaultCardinalProperty "number" 100) ≠ VInt 100.
Proof. split; [reflexivity|]. split; [reflexivity|discriminate]. Qed.

Lemma perCallCreator_first (rest all : Options) (name : string) (value : any) :
  perCallCreator rest all name value
  = (λ fn : CustomCreatorFunc, fn name value (tags all)) <$> firstCreator rest.
Proof.
  unfold firstCreator. induction rest as [|o rest IH]; [done|].
  cbn [perCallCreator omap list_omap]. unfold asCreator at 1.
  destruct (asCustomCreatorFunc o) as [fn|]; [done|].
  destruct (asCustomCreatorHandler o) as [h|]; [done|]. exact IH.
Qed.






(** ** The collection *)

Lemma uint_succ_ne (n : Z) : uint (n + 1) ≠ n.
Proof.
  unfold uint. intros H.
  assert (0 <= n < 2 ^ 64) as Hn by (rewrite <- H; apply Z.mod_pos_bound; lia).
  destruct (decide (n + 1 < 2 ^ 64)) as [Hlt|Hge].
  - rewrite Z.mod_small in H by lia. lia.
  - assert (n + 1 = 2 ^ 64) as Heq by lia. rewrite Heq, Z.mod_same in H by lia. lia.
Qed.

(** Without policy [AddProperty] stores and counts, whatever is there. *)
Lemma AddProperty_no_policy (p : Default) (prop : Property) (options : Options) :
  addPolicy p = None →
  ∃ p', AddProperty p (Some prop) options = Some (p', (Some prop, true, None)) ∧
        syncMap p' = <[Name prop := prop]> (syncMap p) ∧
        Size p' = uint (Size p + 1).
Proof.
  intros Hp. unfold AddProperty. rewrite Hp. cbn [store].
  eexists. split; [reflexivity|]. by split.
Qed.

(** C3 on the code. [Add] under a name that the collection holds replaces
    the entry, so that the collection has as many entries as before, and
    yet adds one to what [Size] reports. *)
Theorem Add_of_present_name_changes_Size (p : Default) (name : string) (v : any)
    (options : Options) (prop old : Property) :
  addPolicy p = None →
  pfFromAny (pf p) name v options = (Some prop, true, None) →
  syncMap p !! Name prop = Some old →
  ∃ p', Add p name v options = Some (p', (Some prop, true, None)) ∧
        syncMap p' !! Name prop = Some prop ∧
        size (syncMap p') = size (syncMap p) ∧
        Size p' = uint (Size p + 1) ∧
        Size p' ≠ Size p.
Proof.
  intros Hp Hf Hold. unfold Add, AddChecked. rewrite Hf.
  destruct (AddProperty_no_policy p prop [] Hp) as (p' & -> & Hm & Hs).
  exists p'. split; [done|]. rewrite Hm, Hs. split; [apply lookup_insert_eq|].
  split; [by eapply map_size_insert_Some|]. split; [done|]. apply uint_succ_ne.
Qed.

Lemma Add_of_present_name_changes_Size_witness :
  ∃ p', Add holdsA "a" (VString "y") [] = Some (p', (Some (DefaultTextProperty "a" "y"), true, None)) ∧
        syncMap p' !! Name (DefaultTextProperty "a" "y") = Some (DefaultTextProperty "a" "y") ∧
        size (syncMap p') = size (syncMap holdsA) ∧
        Size p' = uint (Size holdsA + 1) ∧
        Size p' ≠ Size holdsA.
Proof.
  apply (Add_of_present_name_changes_Size holdsA "a" (VString "y") []
           (DefaultTextProperty "a" "y") (DefaultTextProperty "a" "x"));
    reflexivity.
Defined.

(** The run of the failing input: two insertions under one name into an
    empty collection leave one entry and a reported size of two. *)
Example two_Adds_one_entry_Size_two :
  ∃ p1 p2,
    Add (EmptyMutable sampleFactory []) "a" (VString "x") []
    = Some (p1, (Some (DefaultTextProperty "a" "x"), true, None)) ∧
    Add p1 "a" (VString "y") [] = Some (p2, (Some (DefaultTextProperty "a" "y"), true, None)) ∧
    Size p1 = 1 ∧ Size p2 = 2 ∧
    syncMap p2 = {[ "a"%string := DefaultTextProperty "a" "y" ]} ∧
    size (syncMap p2) = 1%nat.
Proof. do 2 eexists. repeat split. Qed.

(** ** The veto policy *)

Section Veto.

Variable p : Default.
Variable policy : AddPropertyPolicy.
Hypothesis configured : addPolicy p = Some policy.
Hypothesis veto : vetoes policy.

Lemma AddProperty_veto (prop : option Property) (options : Options) :
  AddProperty p prop options
  = Some (p, (created (AllowAdd policy prop (tags options)), false, None)).
Proof.
  unfold AddProperty. rewrite configured.
  destruct (veto prop (tags options)) as [Hok Herr].
  destruct (AllowAdd policy prop (tags options)) as [[finalProp add] err].
  cbn in Hok, Herr. by subst.
Qed.

Lemma AddChecked_veto (name : string) (v : any) (allow : option AllowAddFunc)
    (options : Options) :
  ∃ prop, AddChecked p name v allow options
          = Some (p, (prop, false, failure (pfFromAny (pf p) name v options))).
Proof.
  unfold AddChecked.
  destruct (pfFromAny (pf p) name v options) as [[prop ok] [e|]]; [by eexists|].
  destruct allow as [fn|].
  - destruct (fn name v prop) as [[prop' ok'] err']. destruct ok'; [|by eexists].
    rewrite AddProperty_veto. by eexists.
  - destruct ok; [|by eexists]. rewrite AddProperty_veto. by eexists.
Qed.

Lemma AddParsedChecked_veto (name value : string) (allow : option AllowAddTextFunc)
    (options : Options) :
  ∃ prop, AddParsedChecked p name value allow options
          = Some (p, (prop, false, failure (pfFromText (pf p) name value options))).
Proof.
  unfold AddParsedChecked.
  destruct (pfFromText (pf p) name value options) as [[prop ok] [e|]]; [by eexists|].
  destruct allow as [fn|].
  - destruct (fn name value prop) as [[prop' ok'] err']. destruct ok'; [|by eexists].
    rewrite AddProperty_veto. by eexists.
  - destruct ok; [|by eexists]. rewrite AddProperty_veto. by eexists.
Qed.

Lemma addMapLoop_veto (items : list (string * any)) (allow : option AllowAddFunc)
    (options : Options) (count : Z) :
  addMapLoop p items allow options count
  = Some (p, (count, firstFailure (λ name v, pfFromAny (pf p) name v options) items)).
Proof.
  unfold firstFailure. induction items as [|[name v] items IH]; [done|].
  cbn [addMapLoop]. destruct (AddChecked_veto name v allow options) as [prop ->].
  cbn [omap list_omap fst snd].
  destruct (failure (pfFromAny (pf p) name v options)) as [e|]; [done|]. exact IH.
Qed.

Lemma addTextMapLoop_veto (items : list (string * string))
    (allow : option AllowAddTextFunc) (options : Options) (count : Z) :
  addTextMapLoop p items allow options count
  = Some (p, (count, firstFailure (λ name v, pfFromText (pf p) name v options) items)).
Proof.
  unfold firstFailure. induction items as [|[name v] items IH]; [done|].
  cbn [addTextMapLoop]. destruct (AddParsedChecked_veto name v allow options) as [prop ->].
  cbn [omap list_omap fst snd].
  destruct (failure (pfFromText (pf p) name v options)) as [e|]; [done|]. exact IH.
Qed.

End Veto.

(** A new collection is empty, reports size zero and has notified nobody. *)
Lemma configure_content (result : Default) (options : Options) :
  syncMap (configure result options) = syncMap result ∧
  syncMapSize (configure result options) = syncMapSize result ∧
  notified (configure result options) = notified result.
Proof.
  revert result. induction options as [|o options IH]; intros result; [done|].
  cbn [configure]. destruct (asAddPropertyPolicy o), (asAddPropertyEvent o);
    match goal with
    | |- context [configure ?r options] => destruct (IH r) as (-> & -> & ->)
    end; done.
Qed.

Lemma newDefaultProperties_empty (pf0 : PropertyFactory) (options : Options) :
  syncMap (newDefaultProperties pf0 options) = ∅ ∧
  Size (newDefaultProperties pf0 options) = 0 ∧
  notified (newDefaultProperties pf0 options) = [].
Proof. apply configure_content. Qed.

(** C9, as the code has it. In a collection whose policy vetoes every
    insertion, [AddProperty], [Add], [AddParsed] and the insertion of each
    entry by [AddMap] and [AddTextMap] return accepted=false and leave the
    collection as it was: nothing is stored, no add-event is notified, and
    the size does not change, so that a new collection stays at size zero.
    [AddProperty] returns no error. [Add], [AddParsed] and the bulk
    insertions return the error of the property factory when it fails to
    build a property, and no error otherwise. *)
Theorem veto_policy_rejects_every_insertion (p : Default) (policy : AddPropertyPolicy) :
  addPolicy p = Some policy → vetoes policy →
  (∀ prop options, ∃ prop',
      AddProperty p prop options = Some (p, (prop', false, None))) ∧
  (∀ name v options, ∃ prop',
      Add p name v options
      = Some (p, (prop', false, failure (pfFromAny (pf p) name v options)))) ∧
  (∀ name text options, ∃ prop',
      AddParsed p name text options
      = Some (p, (prop', false, failure (pfFromText (pf p) name text options)))) ∧
  (∀ name v allow options, ∃ prop',
      AddChecked p name v allow options
      = Some (p, (prop', false, failure (pfFromAny (pf p) name v options)))) ∧
  (∀ name text allow options, ∃ prop',
      AddParsedChecked p name text allow options
      = Some (p, (prop', false, failure (pfFromText (pf p) name text options)))) ∧
  (∀ items allow options,
      AddMap p (Some items) allow options
      = Some (p, (0, firstFailure (λ name v, pfFromAny (pf p) name v options) items))) ∧
  (∀ items allow options,
      AddTextMap p (Some items) allow options
      = Some (p, (0, firstFailure (λ name v, pfFromText (pf p) name v options) items))) ∧
  (∀ pf0 options,
      syncMap (newDefaultProperties pf0 options) = ∅ ∧
      Size (newDefaultProperties pf0 options) = 0 ∧
      notified (newDefaultProperties pf0 options) = []).
Proof.
  intros Hp Hv. repeat split.
  - intros. rewrite (AddProperty_veto p policy Hp Hv). by eexists.
  - intros. apply (AddChecked_veto p policy Hp Hv).
  - intros. apply (AddParsedChecked_veto p policy Hp Hv).
  - intros. apply (AddChecked_veto p policy Hp Hv).
  - intros. apply (AddParsedChecked_veto p policy Hp Hv).
  - intros. apply (addMapLoop_veto p policy Hp Hv).
  - intros. apply (addTextMapLoop_veto p policy Hp Hv).
  - apply newDefaultProperties_empty.
  - apply newDefaultProperties_empty.
  - apply newDefaultProperties_empty.
Qed.

Lemma vetoAll_vetoes : vetoes vetoAll.
Proof. intros prop optionTags. split; reflexivity. Defined.

Lemma veto_policy_rejects_every_insertion_witness :
  (∃ prop', Add vetoCollection "text" (VString "Test text") []
            = Some (vetoCollection, (prop', false, None))) ∧
  (∃ prop', AddParsed vetoCollection "number" "221" []
            = Some (vetoCollection, (prop', false, None))) ∧
  AddMap vetoCollection (Some [("flag"%string, VBool true); ("number"%string, VInt 100)])
    (Some DefaultAllowAdd) []
  = Some (vetoCollection, (0, None)) ∧
  Size vetoCollection = 0.
Proof.
  pose proof (veto_policy_rejects_every_insertion vetoCollection vetoAll eq_refl
                vetoAll_vetoes) as (_ & HAdd & HParsed & _ & _ & HMap & _ & _).
  split; [exact (HAdd "text"%string (VString "Test text") [])|].
  split; [exact (HParsed "number"%string "221"%string [])|].
  split; [exact (HMap [("flag"%string, VBool true); ("number"%string, VInt 100)]
                   (Some DefaultAllowAdd) [])|].
  reflexivity.
Defined.

(** C9, as the specification has it, fails: under the veto policy [Add] of
    a value of unknown type is not accepted and does return an error. *)
Lemma vetoed_Add_can_fail :
  vetoes vetoAll ∧
  addPolicy vetoCollection = Some vetoAll ∧
  Add vetoCollection "custom" (VOpaque "*properties.PropertiesSuite" "&{}") []
  = Some (vetoCollection,
          (None, false,
           Some (ErrUnknownType "custom" "*properties.PropertiesSuite"
                   (VOpaque "*properties.PropertiesSuite" "&{}")))).
Proof. split; [exact vetoAll_vetoes|]. split; reflexivity. Qed.

(** ** The tests of the repository *)

Example TestNoFrontMatter :
  fromYAMLFrontMatter sampleUnmarshalText sampleUnmarshalAny sampleFactory noFrontMatter
    false None None []
  = Some (Some noFrontMatter, None, 0, None).
Proof. reflexivity. Qed.

Example TestValidFrontMatter :
  observed (fromYAMLFrontMatter sampleUnmarshalText sampleUnmarshalAny sampleFactory
              validFrontMatter false None None [])
  = Some (Some (B "test body"), 4, None,
          [Some (VString "test description"); Some (VInt64 221); Some (VBool true);
           Some (VString "2006-01-02T15:04:05Z07:00")]).
Proof. vm_compute. reflexivity. Qed.

Example TestValidSmartParsedFrontMatter :
  observed (fromYAMLFrontMatter sampleUnmarshalText sampleUnmarshalAny sampleFactory
              validFrontMatter true None None [])
  = Some (Some (B "test body"), 4, None,
          [Some (VString "test description"); Some (VInt64 221); Some (VBool true);
           VTime <$> sampleParseAny "2006-01-02T15:04:05Z07:00"]).
Proof. vm_compute. reflexivity. Qed.

Example TestInvalidFrontMatter :
  fromYAMLFrontMatter sampleUnmarshalText sampleUnmarshalAny sampleFactory
    invalidFrontMatter1 false None None []
  = Some (None, None, 0, Some (ErrFrontMatter true 5 0)) ∧
  frontMatterMessage true 5 0
  = "Unexplained front matter parser error; insideFrontMatter: true, yamlStartIndex: 5, yamlEndIndex: 0"%string.
Proof. split; vm_compute; reflexivity. Qed.

(** A last line without line feed is never compared with the delimiter:
    [ReadString] returns it together with [io.EOF], on which the loop
    stops. *)
Example unterminated_delimiter_is_not_seen :
  scan (B "---")
  = Some {| insideFrontMatter := false; yamlStartIndex := 0; yamlEndIndex := 0 |} ∧
  scan (unlines ["---"; "a: 1"] ++ B "---")
  = Some {| insideFrontMatter := true; yamlStartIndex := 4; yamlEndIndex := 0 |}.
Proof. split; vm_compute; reflexivity. Qed.

(** * Further properties of the code *)

(** ** Deletion, insertion and lookup *)

(** X1. After [Delete] the name is not found, every other name is found as
    before, and a second [Delete] of the name returns false and changes
    nothing. [Delete] returns true exactly when the name was stored, and
    never an error. *)
Theorem Delete_removes (p : Default) (name : PropertyName) (options : Options) :
  (Delete p name options).2 = (bool_decide (is_Some (syncMap p !! name)), None) ∧
  Named (Delete p name options).1 name = (None, false) ∧
  (∀ other, other ≠ name →
     Named (Delete p name options).1 other = Named p other) ∧
  Delete (Delete p name options).1 name options
  = ((Delete p name options).1, (false, None)).
Proof.
  unfold Named, Delete. destruct (syncMap p !! name) as [prop|] eqn:E;
    cbn [fst snd syncMap].
  - rewrite lookup_delete_eq. split; [by rewrite bool_decide_eq_true_2 by by eexists|].
    split; [done|]. split; [|done].
    intros other Hne. by rewrite lookup_delete_ne.
  - rewrite E. split; [|done].
    rewrite bool_decide_eq_false_2; [done|]. by intros [? [=]].
Qed.

(** What [AddProperty] can do: refuse and leave the collection as it is, or
    store one property under its own name and count one more. *)
Lemma AddProperty_cases (p p' : Default) (given : option Property) (options : Options)
    (r : Result) :
  AddProperty p given options = Some (p', r) →
  (accepted r = false ∧ p' = p) ∨
  (∃ q, r = (Some q, true, None) ∧
        syncMap p' = <[Name q := q]> (syncMap p) ∧
        Size p' = uint (Size p + 1) ∧
        pf p' = pf p ∧ addPolicy p' = addPolicy p ∧ addEvent p' = addEvent p).
Proof.
  unfold AddProperty.
  assert (∀ fp, store p fp options = Some (p', r) →
            ∃ q, r = (Some q, true, None) ∧
                 syncMap p' = <[Name q := q]> (syncMap p) ∧
                 Size p' = uint (Size p + 1) ∧
                 pf p' = pf p ∧ addPolicy p' = addPolicy p ∧ addEvent p' = addEvent p) as Hs.
  { intros [q|]; [|done]. cbn [store]. intros [= <- <-]. by exists q. }
  destruct (addPolicy p) as [policy|]; [|intros H; right; by eapply Hs].
  destruct (AllowAdd policy given (tags options)) as [[finalProp add] [e|]].
  - intros [= <- <-]. by left.
  - destruct add; cbn [negb].
    + intros H. right. by eapply Hs.
    + intros [= <- <-]. by left.
Qed.

(** X2. A property that goes in without policy is found under its name,
    and the lookup of every other name is as before. *)
Theorem AddProperty_then_Named (p : Default) (prop : Property) (options : Options) :
  addPolicy p = None →
  ∃ p', AddProperty p (Some prop) options = Some (p', (Some prop, true, None)) ∧
        Named p' (Name prop) = (Some prop, true) ∧
        (∀ other, other ≠ Name prop → Named p' other = Named p other).
Proof.
  intros Hp. destruct (AddProperty_no_policy p prop options Hp) as (p' & Ha & Hm & _).
  exists p'. split; [done|]. unfold Named. rewrite Hm, lookup_insert_eq.
  split; [done|]. intros other Hne. by rewrite lookup_insert_ne.
Qed.

Lemma AddProperty_then_Named_witness :
  ∃ p', AddProperty holdsA (Some (DefaultFlagProperty "draft" true)) []
        = Some (p', (Some (DefaultFlagProperty "draft" true), true, None)) ∧
        Named p' (Name (DefaultFlagProperty "draft" true))
        = (Some (DefaultFlagProperty "draft" true), true) ∧
        (∀ other, other ≠ Name (DefaultFlagProperty "draft" true) →
           Named p' other = Named holdsA other).
Proof.
  exact (AddProperty_then_Named holdsA (DefaultFlagProperty "draft" true) [] eq_refl).
Defined.

Lemma uint_small (n : Z) : isUint n → uint n = n.
Proof. unfold isUint, uint. intros H. by rewrite Z.mod_small. Qed.

(** X3. Insertion of a property under a name that is not stored, followed
    by [Delete] of that name, gives back the collection as it was, counter
    included (when the collection has neither policy nor event sink). *)
Theorem AddProperty_then_Delete_restores (p : Default) (prop : Property)
    (options options' : Options) :
  addPolicy p = None → addEvent p = None →
  isUint (Size p) → Size p + 1 < 2 ^ 64 →
  syncMap p !! Name prop = None →
  ∃ p', AddProperty p (Some prop) options = Some (p', (Some prop, true, None)) ∧
        Delete p' (Name prop) options' = (p, (true, None)).
Proof.
  intros Hp He Hu Hlt Hfresh. unfold AddProperty. rewrite Hp. cbn [store].
  eexists. split; [reflexivity|]. unfold Delete. cbn [syncMap syncMapSize pf addPolicy addEvent notified].
  rewrite lookup_insert_eq, He, delete_insert_id by done.
  unfold Size in *.
  rewrite (uint_small (syncMapSize p + 1)) by (unfold isUint in *; lia).
  replace (syncMapSize p + 1 - 1) with (syncMapSize p) by lia.
  rewrite (uint_small _ Hu). destruct p; cbn in *. by subst.
Qed.

Lemma AddProperty_then_Delete_restores_witness :
  ∃ p', AddProperty holdsA (Some (DefaultFlagProperty "draft" true)) []
        = Some (p', (Some (DefaultFlagProperty "draft" true), true, None)) ∧
        Delete p' (Name (DefaultFlagProperty "draft" true)) [] = (holdsA, (true, None)).
Proof.
  apply (AddProperty_then_Delete_restores holdsA (DefaultFlagProperty "draft" true) [] []);
    first [reflexivity | unfold isUint; cbn; lia].
Defined.

(** X4. A policy that allows the insertion with another property has that
    property stored, under the name that it bears; the name of the property
    that was given stays as it was. *)
Theorem policy_substitute_is_stored (p : Default) (policy : AddPropertyPolicy)
    (given : Property) (q : Property) (options : Options) :
  addPolicy p = Some policy →
  AllowAdd policy (Some given) (tags options) = (Some q, true, None) →
  ∃ p', AddProperty p (Some given) options = Some (p', (Some q, true, None)) ∧
        Named p' (Name q) = (Some q, true) ∧
        (Name given ≠ Name q → Named p' (Name given) = Named p (Name given)).
Proof.
  intros Hp Hq. unfold AddProperty. rewrite Hp, Hq. cbn [negb store].
  eexists. split; [reflexivity|]. unfold Named. cbn [syncMap].
  rewrite lookup_insert_eq. split; [done|]. intros Hne. by rewrite lookup_insert_ne.
Qed.

Lemma policy_substitute_is_stored_witness :
  ∃ p', AddProperty renamingCollection (Some (DefaultTextProperty "title" "x")) []
        = Some (p', (Some (CustomProperty "renamed" (VString "x")), true, None)) ∧
        Named p' (Name (CustomProperty "renamed" (VString "x")))
        = (Some (CustomProperty "renamed" (VString "x")), true) ∧
        (Name (DefaultTextProperty "title" "x") ≠ Name (CustomProperty "renamed" (VString "x")) →
         Named p' (Name (DefaultTextProperty "title" "x"))
         = Named renamingCollection (Name (DefaultTextProperty "title" "x"))).
Proof.
  exact (policy_substitute_is_stored renamingCollection renameAll
           (DefaultTextProperty "title" "x") (CustomProperty "renamed" (VString "x")) []
           eq_refl eq_refl).
Defined.

(** X5. [Add] notifies the event sink once, with the property stored and
    with no options: the options that [Add] was given do not reach it. *)
Theorem Add_notifies_without_options (p : Default) (ev : AddPropertyEvent)
    (name : string) (v : any) (options : Options) (prop : Property) :
  addPolicy p = None → addEvent p = Some ev →
  pfFromAny (pf p) name v options = (Some prop, true, None) →
  ∃ p', Add p name v options = Some (p', (Some prop, true, None)) ∧
        notified p' = notified p ++ [(eventName ev, prop, [])].
Proof.
  intros Hp He Hf. unfold Add, AddChecked. rewrite Hf.
  unfold AddProperty. rewrite Hp. cbn [store]. rewrite He.
  eexists. split; reflexivity.
Qed.

Lemma Add_notifies_without_options_witness :
  ∃ p', Add notifyingCollection "title" (VString "x") [plainOption "extra"]
        = Some (p', (Some (DefaultTextProperty "title" "x"), true, None)) ∧
        notified p'
        = notified notifyingCollection ++ [("log"%string, DefaultTextProperty "title" "x", [])].
Proof.
  exact (Add_notifies_without_options notifyingCollection {| eventName := "log" |}
           "title" (VString "x") [plainOption "extra"] (DefaultTextProperty "title" "x")
           eq_refl eq_refl eq_refl).
Defined.

(** ** Configuration *)

Lemma configure_last (result : Default) (options : Options) :
  pf (configure result options) = pf result ∧
  addPolicy (configure result options)
  = match last (omap asAddPropertyPolicy options) with
    | Some policy => Some policy
    | None => addPolicy result
    end ∧
  addEvent (configure result options)
  = match last (omap asAddPropertyEvent options) with
    | Some ev => Some ev
    | None => addEvent result
    end.
Proof.
  revert result. induction options as [|o options IH]; intros result; [done|].
  cbn [configure omap list_omap].
  destruct (asAddPropertyPolicy o) as [policy|], (asAddPropertyEvent o) as [ev|];
    match goal with
    | |- context [configure ?r options] => destruct (IH r) as (-> & -> & ->)
    end; cbn [pf addPolicy addEvent]; rewrite ?last_cons;
    repeat split; by repeat case_match.
Qed.

(** X6. A new collection takes its policy from the last option that is a
    policy and its event sink from the last option that is an event sink;
    without such an option it has none. It keeps the factory it is given. *)
Theorem newDefaultProperties_last_option_wins (pf0 : PropertyFactory) (options : Options) :
  pf (newDefaultProperties pf0 options) = pf0 ∧
  addPolicy (newDefaultProperties pf0 options) = last (omap asAddPropertyPolicy options) ∧
  addEvent (newDefaultProperties pf0 options) = last (omap asAddPropertyEvent options).
Proof.
  unfold newDefaultProperties.
  match goal with
  | |- context [configure ?r options] => destruct (configure_last r options) as (-> & -> & ->)
  end.
  cbn [pf addPolicy addEvent]. repeat split; by case_match.
Qed.

(** ** What every reachable collection satisfies *)

Lemma AddProperty_wellKept (p p' : Default) (given : option Property)
    (options : Options) (r : Result) :
  wellKept p → Size p + 1 < 2 ^ 64 →
  AddProperty p given options = Some (p', r) →
  wellKept p' ∧ Size p' <= Size p + 1 ∧
  pf p' = pf p ∧ addPolicy p' = addPolicy p ∧ addEvent p' = addEvent p.
Proof.
  intros (Hkey & Hu & Hsize) Hlt Ha.
  destruct (AddProperty_cases _ _ _ _ _ Ha) as [[_ ->]|(q & -> & Hm & Hs & Hpf & Hpol & Hev)].
  - split; [done|]. split; [lia|done].
  - assert (Size p' = Size p + 1) as Hs'
      by (rewrite Hs; apply uint_small; unfold isUint in *; lia).
    split; [|split; [lia|done]]. split; [|split].
    + intros key prop. rewrite Hm, lookup_insert. case_decide; [by intros [= <-]|].
      apply Hkey.
    + unfold isUint in *. lia.
    + rewrite Hm, map_size_insert, Hs'.
      case_match; unfold id; lia.
Qed.

Lemma AddChecked_step (p p' : Default) (name : string) (v : any)
    (allow : option AllowAddFunc) (options : Options) (r : Result) :
  AddChecked p name v allow options = Some (p', r) →
  (p' = p ∧ accepted r = false) ∨ (∃ given, AddProperty p given [] = Some (p', r)).
Proof.
  unfold AddChecked.
  destruct (pfFromAny (pf p) name v options) as [[prop ok] [e|]].
  { intros [= <- <-]. by left. }
  destruct allow as [fn|].
  - destruct (fn name v prop) as [[prop' ok'] err']. destruct ok'.
    + intros H. right. by eexists.
    + intros [= <- <-]. by left.
  - destruct ok.
    + intros H. right. by eexists.
    + intros [= <- <-]. by left.
Qed.

Lemma AddParsedChecked_step (p p' : Default) (name text : string)
    (allow : option AllowAddTextFunc) (options : Options) (r : Result) :
  AddParsedChecked p name text allow options = Some (p', r) →
  (p' = p ∧ accepted r = false) ∨ (∃ given, AddProperty p given [] = Some (p', r)).
Proof.
  unfold AddParsedChecked.
  destruct (pfFromText (pf p) name text options) as [[prop ok] [e|]].
  { intros [= <- <-]. by left. }
  destruct allow as [fn|].
  - destruct (fn name text prop) as [[prop' ok'] err']. destruct ok'.
    + intros H. right. by eexists.
    + intros [= <- <-]. by left.
  - destruct ok.
    + intros H. right. by eexists.
    + intros [= <- <-]. by left.
Qed.

Lemma keeps_refl (p : Default) (n : Z) : wellKept p → 0 <= n → keeps p p n.
Proof. intros H Hn. split; [done|]. split; [lia|done]. Qed.

Lemma AddChecked_keeps (p p' : Default) (name : string) (v : any)
    (allow : option AllowAddFunc) (options : Options) (r : Result) :
  wellKept p → Size p + 1 < 2 ^ 64 →
  AddChecked p name v allow options = Some (p', r) → keeps p p' 1.
Proof.
  intros Hw Hlt Ha. destruct (AddChecked_step _ _ _ _ _ _ _ Ha) as [[-> _]|[given Hg]].
  - by apply keeps_refl.
  - by eapply AddProperty_wellKept.
Qed.

Lemma AddParsedChecked_keeps (p p' : Default) (name text : string)
    (allow : option AllowAddTextFunc) (options : Options) (r : Result) :
  wellKept p → Size p + 1 < 2 ^ 64 →
  AddParsedChecked p name text allow options = Some (p', r) → keeps p p' 1.
Proof.
  intros Hw Hlt Ha.
  destruct (AddParsedChecked_step _ _ _ _ _ _ _ Ha) as [[-> _]|[given Hg]].
  - by apply keeps_refl.
  - by eapply AddProperty_wellKept.
Qed.

Lemma len_cons {A} (x : A) (l : list A) : len (x :: l) = 1 + len l.
Proof. unfold len. cbn [length]. lia. Qed.

Lemma addMapLoop_keeps (items : list (string * any)) (p p' : Default)
    (allow : option AllowAddFunc) (options : Options) (count : Z)
    (r : Z * option error) :
  wellKept p → Size p + len items < 2 ^ 64 →
  addMapLoop p items allow options count = Some (p', r) → keeps p p' (len items).
Proof.
  revert p count. induction items as [|[name v] items IH]; intros p count Hw Hlt.
  - intros [= <- <-]. by apply keeps_refl.
  - cbn [addMapLoop]. rewrite len_cons in *. pose proof (len_nonneg items).
    destruct (AddChecked p name v allow options) as [[p1 [[prop ok] err]]|] eqn:E; [|done].
    destruct (AddChecked_keeps _ _ _ _ _ _ _ Hw ltac:(lia) E) as (Hw1 & Hs1 & Hpf & Hpol & Hev).
    destruct err as [e|].
    + intros [= <- <-]. split; [done|]. split; [lia|done].
    + intros H'. destruct (IH _ _ Hw1 ltac:(lia) H') as (Hw2 & Hs2 & Hpf2 & Hpol2 & Hev2).
      split; [done|]. split; [lia|]. split; [congruence|]. split; congruence.
Qed.

Lemma addTextMapLoop_keeps (items : list (string * string)) (p p' : Default)
    (allow : option AllowAddTextFunc) (options : Options) (count : Z)
    (r : Z * option error) :
  wellKept p → Size p + len items < 2 ^ 64 →
  addTextMapLoop p items allow options count = Some (p', r) → keeps p p' (len items).
Proof.
  revert p count. induction items as [|[name v] items IH]; intros p count Hw Hlt.
  - intros [= <- <-]. by apply keeps_refl.
  - cbn [addTextMapLoop]. rewrite len_cons in *. pose proof (len_nonneg items).
    destruct (AddParsedChecked p name v allow options) as [[p1 [[prop ok] err]]|] eqn:E;
      [|done].
    destruct (AddParsedChecked_keeps _ _ _ _ _ _ _ Hw ltac:(lia) E)
      as (Hw1 & Hs1 & Hpf & Hpol & Hev).
    destruct err as [e|].
    + intros [= <- <-]. split; [done|]. split; [lia|done].
    + intros H'. destruct (IH _ _ Hw1 ltac:(lia) H') as (Hw2 & Hs2 & Hpf2 & Hpol2 & Hev2).
      split; [done|]. split; [lia|]. split; [congruence|]. split; congruence.
Qed.

Lemma Delete_keeps (p : Default) (name : PropertyName) (options : Options) :
  wellKept p → keeps p (Delete p name options).1 0.
Proof.
  intros (Hkey & Hu & Hsize). unfold Delete.
  destruct (syncMap p !! name) as [prop|] eqn:E; cbn [fst].
  - assert (0 < size (syncMap p))%nat as Hpos.
    { destruct (decide (size (syncMap p) = 0%nat)) as [H0|]; [|lia].
      apply map_size_empty_inv in H0. rewrite H0 in E. by rewrite lookup_empty in E. }
    unfold keeps, wellKept, Size in *. cbn [syncMap syncMapSize pf addPolicy addEvent].
    rewrite uint_small by (unfold isUint in *; lia).
    rewrite map_size_delete_Some by by eexists.
    unfold isUint in *. split; [|split; [lia|done]]. split; [|lia].
    intros key q [_ Hq]%lookup_delete_Some. by apply Hkey.
  - apply keeps_refl; [done|lia].
Qed.

Lemma offered_nonneg (m : Mutation) : 0 <= offered m.
Proof.
  destruct m as [| | |[items|]|[items|]|]; cbn; try lia; apply len_nonneg.
Qed.

Lemma offeredAll_nonneg (ms : list Mutation) : 0 <= offeredAll ms.
Proof.
  induction ms as [|m ms IH]; cbn; [lia|]. pose proof (offered_nonneg m). lia.
Qed.

Lemma mutate_keeps (p p' : Default) (m : Mutation) :
  wellKept p → Size p + offered m < 2 ^ 64 → mutate p m = Some p' →
  keeps p p' (offered m).
Proof.
  intros Hw Hlt. destruct m as [given o|name v allow o|name text allow o
                               |[items|] allow o|[items|] allow o|name o];
    cbn [mutate offered] in *.
  - destruct (AddProperty p given o) as [[p1 r]|] eqn:E; [|done].
    intros [= <-]. by eapply AddProperty_wellKept.
  - destruct (AddChecked p name v allow o) as [[p1 r]|] eqn:E; [|done].
    intros [= <-]. by eapply AddChecked_keeps.
  - destruct (AddParsedChecked p name text allow o) as [[p1 r]|] eqn:E; [|done].
    intros [= <-]. by eapply AddParsedChecked_keeps.
  - cbn [AddMap]. destruct (addMapLoop p items allow o 0) as [[p1 r]|] eqn:E; [|done].
    intros [= <-]. by eapply addMapLoop_keeps.
  - intros [= <-]. by apply keeps_refl.
  - cbn [AddTextMap]. destruct (addTextMapLoop p items allow o 0) as [[p1 r]|] eqn:E; [|done].
    intros [= <-]. by eapply addTextMapLoop_keeps.
  - intros [= <-]. by apply keeps_refl.
  - intros [= <-]. by apply Delete_keeps.
Qed.

Lemma mutateAll_keeps (ms : list Mutation) (p p' : Default) :
  wellKept p → Size p + offeredAll ms < 2 ^ 64 → mutateAll p ms = Some p' →
  keeps p p' (offeredAll ms).
Proof.
  revert p. induction ms as [|m ms IH]; intros p Hw Hlt; cbn [mutateAll offeredAll] in *.
  - intros [= <-]. by apply keeps_refl.
  - pose proof (offered_nonneg m). pose proof (offeredAll_nonneg ms).
    destruct (mutate p m) as [p1|] eqn:E; [|done]. intros H'.
    destruct (mutate_keeps p p1 m Hw ltac:(lia) E) as (Hw1 & Hs1 & Hpf & Hpol & Hev).
    destruct (IH _ Hw1 ltac:(lia) H') as (Hw2 & Hs2 & Hpf2 & Hpol2 & Hev2).
    split; [done|]. split; [lia|]. split; [congruence|]. split; congruence.
Qed.

Lemma newDefaultProperties_wellKept (pf0 : PropertyFactory) (options : Options) :
  wellKept (newDefaultProperties pf0 options).
Proof.
  destruct (newDefaultProperties_empty pf0 options) as (Hm & Hs & _).
  unfold wellKept. rewrite Hm, Hs. split; [|by unfold isUint].
  intros key prop. by rewrite lookup_empty.
Qed.

(** X7. In every state that a new collection reaches through insertions
    and deletions (fewer than 2^64 properties offered in all), each entry is
    stored under the name of its property, [Size] is at least the number of
    entries, and factory, policy and event sink are those of the start. *)
Theorem reachable_collections_are_well_kept (pf0 : PropertyFactory) (options : Options)
    (ms : list Mutation) (p : Default) :
  offeredAll ms < 2 ^ 64 →
  mutateAll (newDefaultProperties pf0 options) ms = Some p →
  (∀ key prop, syncMap p !! key = Some prop → Name prop = key) ∧
  Z.of_nat (size (syncMap p)) <= Size p < 2 ^ 64 ∧
  pf p = pf0 ∧
  addPolicy p = addPolicy (newDefaultProperties pf0 options) ∧
  addEvent p = addEvent (newDefaultProperties pf0 options).
Proof.
  intros Hlt Hm.
  pose proof (newDefaultProperties_wellKept pf0 options) as Hw.
  destruct (newDefaultProperties_empty pf0 options) as (_ & Hs & _).
  destruct (mutateAll_keeps ms _ _ Hw ltac:(rewrite Hs; lia) Hm)
    as ((Hkey & Hu & Hsize) & _ & Hpf & Hpol & Hev).
  assert (pf (newDefaultProperties pf0 options) = pf0) as Hpf0
    by apply configure_last.
  unfold isUint in Hu. split; [done|]. split; [lia|]. split; [congruence|done].
Qed.

Lemma reachable_collections_are_well_kept_witness :
  (∀ key prop, syncMap twiceA !! key = Some prop → Name prop = key) ∧
  Z.of_nat (size (syncMap twiceA)) <= Size twiceA < 2 ^ 64 ∧
  pf twiceA = PropFactory sampleFactory ∧
  addPolicy twiceA = addPolicy (newDefaultProperties (PropFactory sampleFactory) []) ∧
  addEvent twiceA = addEvent (newDefaultProperties (PropFactory sampleFactory) []).
Proof.
  apply (reachable_collections_are_well_kept (PropFactory sampleFactory) []
           [MutAddChecked "a" (VString "x") None [];
            MutAddChecked "a" (VString "y") None [];
            MutDelete "b" []] twiceA); reflexivity.
Defined.

(** ** Bulk insertion *)

Lemma addMapLoop_app (pre post : list (string * any)) (p : Default)
    (allow : option AllowAddFunc) (options : Options) (count : Z) :
  addMapLoop p (pre ++ post) allow options count
  = match addMapLoop p pre allow options count with
    | Some (p', (count', None)) => addMapLoop p' post allow options count'
    | other => other
    end.
Proof.
  revert p count. induction pre as [|[name v] pre IH]; intros p count; [done|].
  cbn [app addMapLoop].
  destruct (AddChecked p name v allow options) as [[p1 [[prop ok] [e|]]]|];
    first [reflexivity | apply IH].
Qed.

Lemma addMapLoop_pf (items : list (string * any)) (p p' : Default)
    (allow : option AllowAddFunc) (options : Options) (count : Z)
    (r : Z * option error) :
  addMapLoop p items allow options count = Some (p', r) → pf p' = pf p.
Proof.
  revert p count. induction items as [|[name v] items IH]; intros p count.
  - by intros [= <- <-].
  - cbn [addMapLoop].
    destruct (AddChecked p name v allow options) as [[p1 [[prop ok] err]]|] eqn:E; [|done].
    assert (pf p1 = pf p) as Hpf.
    { destruct (AddChecked_step _ _ _ _ _ _ _ E) as [[-> _]|[given Hg]]; [done|].
      destruct (AddProperty_cases _ _ _ _ _ Hg) as [[_ ->]|(q & _ & _ & _ & H & _)]; done. }
    destruct err as [e|]; [by intros [= <- <-]|].
    intros H. rewrite <- Hpf. by eapply IH.
Qed.

(** X8. [AddMap] stops at the first entry that the factory fails on: it
    returns that error with the count reached so far, keeps what the
    entries before it have stored, and does not look at the entries after
    it. *)
Theorem AddMap_fails_fast (p p' : Default) (pre post : list (string * any))
    (name : string) (v : any) (allow : option AllowAddFunc) (options : Options)
    (count : Z) (e : error) :
  AddMap p (Some pre) allow options = Some (p', (count, None)) →
  failure (pfFromAny (pf p) name v options) = Some e →
  AddMap p (Some (pre ++ (name, v) :: post)) allow options = Some (p', (count, Some e)).
Proof.
  cbn [AddMap]. intros Hpre Hfail. rewrite addMapLoop_app, Hpre. cbn [addMapLoop].
  unfold AddChecked. rewrite (addMapLoop_pf _ _ _ _ _ _ _ Hpre).
  destruct (pfFromAny (pf p) name v options) as [[prop ok] err]. cbn in Hfail. by subst.
Qed.

Lemma AddMap_fails_fast_witness :
  AddMap holdsA
    (Some ([("draft"%string, VBool true)] ++ ("custom"%string, VOpaque "url.URL" "{}")
             :: [("title"%string, VString "t")])) None []
  = Some ({| pf := PropFactory sampleFactory;
             syncMap := <[ "draft"%string := DefaultFlagProperty "draft" true ]> (syncMap holdsA);
             syncMapSize := 2; addPolicy := None; addEvent := None; notified := [] |},
          (1, Some (ErrUnknownType "custom" "url.URL" (VOpaque "url.URL" "{}")))).
Proof.
  apply (AddMap_fails_fast holdsA _ [("draft"%string, VBool true)]
           [("title"%string, VString "t")] "custom" (VOpaque "url.URL" "{}") None []);
    reflexivity.
Defined.

(** X9. The error that an allow function returns is dropped. When the
    allow function refuses every entry and the factory builds them all,
    [AddMap] stores nothing and returns a count of zero and no error. *)
Theorem AddMap_drops_allow_errors (p : Default) (items : list (string * any))
    (fn : AllowAddFunc) (options : Options) :
  (∀ name v prop, accepted (fn name v prop) = false) →
  Forall (λ item, failure (pfFromAny (pf p) item.1 item.2 options) = None) items →
  AddMap p (Some items) (Some fn) options = Some (p, (0, None)).
Proof.
  intros Hfn Hall. cbn [AddMap]. generalize 0 as count.
  induction Hall as [|[name v] items Hok _ IH]; intros count; [done|].
  cbn [addMapLoop]. unfold AddChecked. cbn [fst snd] in Hok.
  destruct (pfFromAny (pf p) name v options) as [[prop ok] err]. cbn in Hok. subst err.
  specialize (Hfn name v prop). destruct (fn name v prop) as [[prop' ok'] err'].
  cbn in Hfn. subst ok'. apply IH.
Qed.

Lemma AddMap_drops_allow_errors_witness :
  AddMap holdsA (Some [("draft"%string, VBool true); ("title"%string, VString "t")])
    (Some refuseAll) []
  = Some (holdsA, (0, None)).
Proof.
  apply (AddMap_drops_allow_errors holdsA
           [("draft"%string, VBool true); ("title"%string, VString "t")] refuseAll []).
  - reflexivity.
  - repeat constructor.
Defined.

(** ** Smart parsing *)

Lemma FromText_classify (ParseAny : string -> option Time) (f : DefaultPropertyFactory)
    (name value : string) (options : Options) :
  FromText ParseAny f name value options
  = FromAny f name (classify ParseAny value) options.
Proof.
  unfold FromText, classify.
  destruct (strconv.ParseBool value); [done|].
  destruct (ParseAny value); [done|].
  by destruct (strconv.ParseInt10 value).
Qed.

Lemma FromAny_builds (f : DefaultPropertyFactory) (name : string) (v : any)
    (options : Options) (prop : Property) :
  hookFree f → propertyOf name v = Some prop →
  FromAny f name v options = (Some prop, true, None).
Proof.
  intros [H1 H2] Hprop.
  destruct v; try done; cbn [FromAny propertyOf] in *; injection Hprop as <-;
    by apply afterSuccessfulCreate_plain.
Qed.

Lemma propertyOf_Name (name : string) (v : any) (prop : Property) :
  propertyOf name v = Some prop → Name prop = name.
Proof. destruct v; try done; by intros [= <-]. Qed.

Lemma propertyOf_classify (ParseAny : string -> option Time) (name value : string) :
  ∃ prop, propertyOf name (classify ParseAny value) = Some prop ∧
          AnyValue prop = classify ParseAny value.
Proof.
  unfold classify.
  destruct (strconv.ParseBool value); [by eexists|].
  destruct (ParseAny value); [by eexists|].
  destruct (strconv.ParseInt10 value); by eexists.
Qed.

(** X10. A factory without after-create hook makes a property of every
    text: [FromText] never fails and never refuses, whatever the date parser
    and the options are. The property bears the given name, and its value
    is a flag, a time, an integer or the text itself, by precedence. *)
Theorem FromText_always_accepts (ParseAny : string -> option Time)
    (f : DefaultPropertyFactory) (name value : string) (options : Options) :
  hookFree f →
  ∃ prop, FromText ParseAny f name value options = (Some prop, true, None) ∧
          Name prop = name ∧
          AnyValue prop = classify ParseAny value.
Proof.
  intros Hf. destruct (propertyOf_classify ParseAny name value) as (prop & Hp & Hv).
  exists prop. rewrite FromText_classify, (FromAny_builds _ _ _ _ _ Hf Hp).
  split; [done|]. split; [by eapply propertyOf_Name|done].
Qed.

Lemma FromText_always_accepts_witness :
  ∃ prop, FromText sampleParseAny ThePropertyFactory "note" "12 apples"
            [creatorFuncOption "declines" declines]
          = (Some prop, true, None) ∧
          Name prop = "note"%string ∧
          AnyValue prop = classify sampleParseAny "12 apples".
Proof.
  exact (FromText_always_accepts sampleParseAny ThePropertyFactory "note" "12 apples"
           [creatorFuncOption "declines" declines] (conj eq_refl eq_refl)).
Defined.

Lemma AddParsedChecked_classified (ParseAny : string -> option Time)
    (f : DefaultPropertyFactory) (p : Default) (name text : string) (options : Options) :
  pf p = asPropertyFactory ParseAny f →
  AddParsedChecked p name text None options
  = AddChecked p name (classify ParseAny text) None options.
Proof.
  intros Hp. unfold AddParsedChecked, AddChecked. rewrite Hp.
  cbn [pfFromText pfFromAny asPropertyFactory]. by rewrite FromText_classify.
Qed.

Lemma AddChecked_pf (p p' : Default) (name : string) (v : any)
    (allow : option AllowAddFunc) (options : Options) (r : Result) :
  AddChecked p name v allow options = Some (p', r) →
  pf p' = pf p ∧ addPolicy p' = addPolicy p.
Proof.
  intros E. destruct (AddChecked_step _ _ _ _ _ _ _ E) as [[-> _]|[given Hg]]; [done|].
  destruct (AddProperty_cases _ _ _ _ _ Hg) as [[_ ->]|(q & _ & _ & _ & H1 & H2 & _)]; done.
Qed.

Lemma addTextMapLoop_classified (ParseAny : string -> option Time)
    (f : DefaultPropertyFactory) (items : list (string * string)) (p : Default)
    (options : Options) (count : Z) :
  pf p = asPropertyFactory ParseAny f →
  addTextMapLoop p items None options count
  = addMapLoop p (classifyAll ParseAny items) None options count.
Proof.
  revert p count. induction items as [|[name text] items IH]; intros p count Hpf; [done|].
  cbn [addTextMapLoop classifyAll map addMapLoop fst snd].
  rewrite (AddParsedChecked_classified ParseAny f) by done.
  destruct (AddChecked p name (classify ParseAny text) None options)
    as [[p1 [[prop ok] err]]|] eqn:E; [|done].
  destruct err as [e|]; [done|]. apply IH.
  destruct (AddChecked_pf _ _ _ _ _ _ _ E) as [-> _]. done.
Qed.

(** X11. In a collection over a [DefaultPropertyFactory], [AddParsed] of a
    text is [Add] of the value that the text is classified as, and
    [AddTextMap] without allow function is [AddMap] of the classified
    values. *)
Theorem AddParsed_is_Add_of_classified (ParseAny : string -> option Time)
    (f : DefaultPropertyFactory) (p : Default) (options : Options) :
  pf p = asPropertyFactory ParseAny f →
  (∀ name text, AddParsed p name text options
                = Add p name (classify ParseAny text) options) ∧
  (∀ items, AddTextMap p (Some items) None options
            = AddMap p (Some (classifyAll ParseAny items)) None options).
Proof.
  intros Hpf. split.
  - intros name text. by apply (AddParsedChecked_classified ParseAny f).
  - intros items. by apply (addTextMapLoop_classified ParseAny f).
Qed.

Lemma AddParsed_is_Add_of_classified_witness :
  (∀ name text, AddParsed holdsA name text [] = Add holdsA name (classify sampleParseAny text) []) ∧
  (∀ items, AddTextMap holdsA (Some items) None []
            = AddMap holdsA (Some (classifyAll sampleParseAny items)) None []).
Proof.
  exact (AddParsed_is_Add_of_classified sampleParseAny ThePropertyFactory holdsA [] eq_refl).
Defined.

(** ** A collection made from a map *)

Section FromMap.

Variable ParseAny : string -> option Time.
Variable f : DefaultPropertyFactory.
Hypothesis noHook : hookFree f.
Variable allow : option AllowAddFunc.
Hypothesis allowOK : allowsAll allow.
Variable options : Options.

Lemma AddChecked_builds (p : Default) (name : string) (v : any) (prop : Property) :
  pf p = asPropertyFactory ParseAny f → addPolicy p = None →
  propertyOf name v = Some prop →
  AddChecked p name v allow options = store p (Some prop) [].
Proof using noHook allowOK.
  intros Hpf Hpol Hprop. unfold AddChecked. rewrite Hpf.
  cbn [pfFromAny asPropertyFactory]. rewrite (FromAny_builds _ _ _ _ _ noHook Hprop).
  destruct allowOK as [-> | ->]; unfold DefaultAllowAdd, AddProperty; by rewrite Hpol.
Qed.

Lemma builtEntries_cons (name : string) (v : any) (prop : Property)
    (items : list (string * any)) :
  propertyOf name v = Some prop →
  builtEntries ((name, v) :: items) = (name, prop) :: builtEntries items.
Proof. intros H. unfold builtEntries. cbn [omap list_omap fst snd]. by rewrite H. Qed.

Lemma builtEntries_fst (items : list (string * any)) :
  Forall recognized items → (builtEntries items).*1 = items.*1.
Proof.
  induction 1 as [|[name v] items [prop Hp] _ IH]; [done|]. cbn in Hp.
  rewrite (builtEntries_cons _ _ _ _ Hp). cbn. by rewrite IH.
Qed.

Lemma addMapLoop_distinct (items : list (string * any)) (p : Default) (count : Z) :
  pf p = asPropertyFactory ParseAny f → addPolicy p = None →
  distinctKeys items → Forall recognized items →
  isUint count → count + len items < 2 ^ 64 →
  isUint (Size p) → Size p + len items < 2 ^ 64 →
  ∃ p', addMapLoop p items allow options count = Some (p', (count + len items, None)) ∧
        syncMap p' = list_to_map (builtEntries items) ∪ syncMap p ∧
        Size p' = Size p + len items.
Proof using noHook allowOK.
  revert p count. induction items as [|[name v] items IH];
    intros p count Hpf Hpol Hdist Hrec Hc Hclt Hs Hslt.
  - exists p. cbn [addMapLoop builtEntries omap list_omap]. unfold len. cbn [length].
    rewrite list_to_map_nil, (left_id_L ∅ (∪)). split; [f_equal; f_equal; f_equal; lia|].
    split; [done|lia].
  - apply Forall_cons in Hrec as [[prop Hprop] Hrec]. cbn [fst snd] in Hprop.
    apply NoDup_cons in Hdist as [Hnotin Hdist]. cbn [fst] in Hnotin.
    rewrite len_cons in *. pose proof (len_nonneg items) as Hlen.
    cbn [addMapLoop]. rewrite (AddChecked_builds _ _ _ _ Hpf Hpol Hprop). cbn [store].
    set (p1 := {| pf := pf p; syncMap := <[Name prop:=prop]> (syncMap p) |}).
    destruct (IH p1 (uint (count + 1))) as (p' & Hloop & Hmap & Hsize); try done.
    + rewrite uint_small; unfold isUint in *; lia.
    + rewrite uint_small; unfold isUint in *; lia.
    + subst p1. unfold Size. cbn [syncMapSize].
      rewrite uint_small; unfold isUint, Size in *; lia.
    + subst p1. unfold Size. cbn [syncMapSize].
      rewrite uint_small; unfold isUint, Size in *; lia.
    + exists p'. rewrite Hloop, Hmap, Hsize. subst p1. unfold Size. cbn [syncMap syncMapSize].
      rewrite !uint_small by (unfold isUint, Size in *; lia).
      split; [do 3 f_equal; lia|]. split; [|unfold Size; lia].
      rewrite (builtEntries_cons _ _ _ _ Hprop), (propertyOf_Name _ _ _ Hprop).
      cbn [list_to_map foldr]. rewrite <- insert_union_l, insert_union_r; [done|].
      apply not_elem_of_list_to_map_1. by rewrite builtEntries_fst.
Qed.

Lemma fromStringMap_distinct (items : list (string * any)) :
  last (omap asAddPropertyPolicy options) = None →
  distinctKeys items → Forall recognized items → len items < 2 ^ 64 →
  ∃ p, fromStringMap {| PropFactory := asPropertyFactory ParseAny f |} (Some items)
         allow options
       = Some (Some p, len items, None) ∧
       syncMap p = list_to_map (builtEntries items) ∧
       Size p = len items.
Proof using noHook allowOK.
  intros Hpol Hdist Hrec Hlt. unfold fromStringMap, EmptyMutable. cbn [PropFactory AddMap].
  pose proof (len_nonneg items) as Hlen.
  destruct (configure_last
              {| pf := asPropertyFactory ParseAny f; syncMap := ∅; syncMapSize := 0;
                 addPolicy := None; addEvent := None; notified := [] |} options)
    as (Hpf & Hp & _).
  rewrite Hpol in Hp. cbn [pf addPolicy] in Hpf, Hp.
  destruct (newDefaultProperties_empty (asPropertyFactory ParseAny f) options)
    as (Hm & Hs & _).
  destruct (addMapLoop_distinct items
              (newDefaultProperties (asPropertyFactory ParseAny f) options) 0)
    as (p & Hloop & Hmap & Hsize); try done;
    try (rewrite ?Hs; unfold isUint; lia).
  exists p. rewrite Hloop, Hmap, Hsize, Hm, Hs, (right_id_L ∅ (∪)).
  split; [do 3 f_equal; lia|]. split; [done|lia].
Qed.

End FromMap.

Lemma size_list_to_map {A} (l : list (string * A)) :
  NoDup l.*1 → size (list_to_map l : gmap string A) = length l.
Proof.
  intros H. rewrite <- length_map_to_list.
  apply Permutation_length. by apply map_to_list_to_map.
Qed.

Lemma elem_of_builtEntries (items : list (string * any)) (name : string) (v : any)
    (prop : Property) :
  (name, v) ∈ items → propertyOf name v = Some prop → (name, prop) ∈ builtEntries items.
Proof.
  intros Hin Hprop. unfold builtEntries. apply list_elem_of_omap.
  exists (name, v). split; [done|]. cbn. by rewrite Hprop.
Qed.

(** X12. A map with distinct keys whose values are all of recognized kinds
    becomes a collection that holds one property for every entry: the count
    returned and [Size] are the number of entries, every key is found with
    the property of its value, and no other name is found. (Factory without
    after-create hook, no policy among the options, allow function nil or
    the default one.) *)
Theorem MutableFromStringMap_distinct (ParseAny : string -> option Time)
    (f : DefaultPropertyFactory) (items : list (string * any))
    (allow : option AllowAddFunc) (options : Options) :
  hookFree f → allowsAll allow →
  last (omap asAddPropertyPolicy options) = None →
  distinctKeys items → Forall recognized items → len items < 2 ^ 64 →
  ∃ p, MutableFromStringMap {| PropFactory := asPropertyFactory ParseAny f |}
         (Some items) allow options
       = Some (Some p, len items, None) ∧
       Size p = len items ∧
       size (syncMap p) = length items ∧
       (∀ name v, (name, v) ∈ items → Named p name = (propertyOf name v, true)) ∧
       (∀ name, name ∉ items.*1 → Named p name = (None, false)).
Proof.
  intros Hf Ha Hpol Hdist Hrec Hlt.
  destruct (fromStringMap_distinct ParseAny f Hf allow Ha options items Hpol Hdist Hrec Hlt)
    as (p & Hfrom & Hmap & Hsize).
  assert (NoDup (builtEntries items).*1) as Hnd by by rewrite builtEntries_fst.
  exists p. split; [exact Hfrom|]. split; [done|]. split; [|split].
  - rewrite Hmap, size_list_to_map by done.
    rewrite <- (length_fmap fst), builtEntries_fst by done. by rewrite length_fmap.
  - intros name v Hin. rewrite Forall_forall in Hrec.
    destruct (Hrec _ Hin) as [prop Hprop]. cbn in Hprop. unfold Named.
    rewrite Hmap, Hprop.
    by rewrite (elem_of_list_to_map_1 _ _ _ Hnd (elem_of_builtEntries _ _ _ _ Hin Hprop)).
  - intros name Hnotin. unfold Named. rewrite Hmap, not_elem_of_list_to_map_1; [done|].
    by rewrite builtEntries_fst.
Qed.

Lemma MutableFromStringMap_distinct_witness :
  ∃ p, MutableFromStringMap {| PropFactory := asPropertyFactory sampleParseAny ThePropertyFactory |}
         (Some [("title"%string, VString "t"); ("pages"%string, VInt 3)])
         (Some DefaultAllowAdd) [plainOption "extra"]
       = Some (Some p, len [("title"%string, VString "t"); ("pages"%string, VInt 3)], None) ∧
       Size p = len [("title"%string, VString "t"); ("pages"%string, VInt 3)] ∧
       size (syncMap p) = length [("title"%string, VString "t"); ("pages"%string, VInt 3)] ∧
       (∀ name v, (name, v) ∈ [("title"%string, VString "t"); ("pages"%string, VInt 3)] →
          Named p name = (propertyOf name v, true)) ∧
       (∀ name, name ∉ [("title"%string, VString "t"); ("pages"%string, VInt 3)].*1 →
          Named p name = (None, false)).
Proof.
  apply (MutableFromStringMap_distinct sampleParseAny ThePropertyFactory
           [("title"%string, VString "t"); ("pages"%string, VInt 3)]
           (Some DefaultAllowAdd) [plainOption "extra"]).
  - split; reflexivity.
  - right. reflexivity.
  - reflexivity.
  - unfold distinctKeys. by_computation.
  - repeat constructor; by eexists.
  - reflexivity.
Defined.

(** ** Enumeration *)

Lemma syncRange_collect (keep : Property -> bool) (entries : list (string * Property))
    (result : list Property) :
  syncRange (fun _ property result =>
               (if keep property then result ++ [property] else result, true))
    entries result
  = result ++ List.filter keep entries.*2.
Proof.
  revert result. induction entries as [|[key value] entries IH]; intros result.
  - cbn. by rewrite app_nil_r.
  - cbn [syncRange fmap list_fmap snd List.filter]. rewrite IH.
    destruct (keep value); [by rewrite <- app_assoc|done].
Qed.

Lemma List_values (rangeOrder : gmap string Property -> list (string * Property))
    (p : Default) :
  List rangeOrder p = (rangeOrder (syncMap p)).*2.
Proof.
  unfold List. rewrite (syncRange_collect (λ _, true)). cbn [app].
  induction (rangeOrder (syncMap p)).*2 as [|x l IH]; [done|]. cbn. by rewrite IH.
Qed.

(** X13. [List] returns every stored property once: as many properties as
    the collection has entries, a property exactly when it is stored under
    some name, and, in a collection that stores every property under its own
    name, no two properties of the same name. *)
Theorem List_lists_every_entry
    (rangeOrder : gmap string Property -> list (string * Property)) (p : Default) :
  visitsAll rangeOrder →
  (∀ key prop, syncMap p !! key = Some prop → Name prop = key) →
  length (List rangeOrder p) = size (syncMap p) ∧
  (∀ prop, prop ∈ List rangeOrder p ↔ ∃ key, syncMap p !! key = Some prop) ∧
  NoDup (Name <$> List rangeOrder p).
Proof.
  intros Hperm Hkey. rewrite List_values. specialize (Hperm (syncMap p)).
  split; [|split].
  - rewrite length_fmap, Hperm. apply length_map_to_list.
  - intros prop. rewrite Hperm, list_elem_of_fmap. split.
    + intros ([key q] & -> & Hin). exists key. by apply elem_of_map_to_list.
    + intros [key Hin]. exists (key, prop). split; [done|]. by apply elem_of_map_to_list.
  - rewrite Hperm.
    assert (Name <$> (map_to_list (syncMap p)).*2 = (map_to_list (syncMap p)).*1) as ->.
    { rewrite <- list_fmap_compose. apply list_fmap_ext.
      intros i [key prop] Hin. cbn. apply Hkey.
      apply elem_of_map_to_list. eapply list_elem_of_lookup_2. exact Hin. }
    apply NoDup_fst_map_to_list.
Qed.

Lemma List_lists_every_entry_witness :
  length (List map_to_list twiceA) = size (syncMap twiceA) ∧
  (∀ prop, prop ∈ List map_to_list twiceA ↔ ∃ key, syncMap twiceA !! key = Some prop) ∧
  NoDup (Name <$> List map_to_list twiceA).
Proof.
  apply (List_lists_every_entry map_to_list twiceA).
  - intros m. reflexivity.
  - intros key prop. unfold twiceA. cbn [syncMap].
    intros [<- <-]%lookup_singleton_Some. reflexivity.
Defined.

Lemma List_filter_Permutation {A} (keep : A → bool) (l1 l2 : list A) :
  l1 ≡ₚ l2 → List.filter keep l1 ≡ₚ List.filter keep l2.
Proof.
  induction 1 as [|x l1 l2 _ IH|x y l|l1 l2 l3 _ IH1 _ IH2]; cbn [List.filter].
  - done.
  - destruct (keep x); [by constructor|done].
  - destruct (keep x), (keep y); try done. by constructor.
  - by etrans.
Qed.

(** X14. [Filter] returns the properties that [List] returns and that
    satisfy the predicate, each as often as [List] has it. The two calls
    traverse the map each in its own order, so the order of the two results
    need not agree. *)
Theorem Filter_is_filter_of_List
    (orderOfFilter orderOfList : gmap string Property -> list (string * Property))
    (p : Default) (keep : Property -> bool) :
  visitsAll orderOfFilter → visitsAll orderOfList →
  Filter orderOfFilter p keep ≡ₚ List.filter keep (List orderOfList p) ∧
  (∀ prop, prop ∈ Filter orderOfFilter p keep
           ↔ prop ∈ List orderOfList p ∧ keep prop = true).
Proof.
  intros HF HL.
  assert (Filter orderOfFilter p keep ≡ₚ List.filter keep (List orderOfList p)) as Hperm.
  { unfold Filter. rewrite syncRange_collect, List_values. cbn [app].
    apply List_filter_Permutation. by rewrite (HF (syncMap p)), (HL (syncMap p)). }
  split; [exact Hperm|]. intros prop.
  rewrite Hperm, !list_elem_of_In. apply filter_In.
Qed.

Lemma Filter_is_filter_of_List_witness :
  Filter map_to_list holdsAB isFlag ≡ₚ List.filter isFlag (List backwards holdsAB) ∧
  (∀ prop, prop ∈ Filter map_to_list holdsAB isFlag
           ↔ prop ∈ List backwards holdsAB ∧ isFlag prop = true).
Proof.
  apply (Filter_is_filter_of_List map_to_list backwards holdsAB isFlag).
  - intros m. reflexivity.
  - intros m. apply reverse_Permutation.
Defined.

Lemma syncRange_export (entries : list (string * Property)) (dest : gmap string any)
    (count : Z) :
  isUint count → count + len entries < 2 ^ 64 →
  syncRange
    (fun _ property '(dest, count) =>
       let '(dest', keepGoing) := DefaultMapAssign property dest in
       ((dest', if keepGoing then uint (count + 1) else count), keepGoing))
    entries (dest, count)
  = (foldl (λ d entry, Copy entry.2 d) dest entries, count + len entries).
Proof.
  revert dest count. induction entries as [|[key value] entries IH]; intros dest count Hc Hlt.
  - cbn. unfold len. cbn. f_equal. lia.
  - rewrite len_cons in *. pose proof (len_nonneg entries).
    cbn [syncRange DefaultMapAssign foldl snd].
    rewrite IH by (rewrite uint_small; unfold isUint in *; lia).
    rewrite uint_small by (unfold isUint in *; lia). f_equal. lia.
Qed.

Lemma foldl_Copy (entries : list (string * Property)) (dest : gmap string any) :
  NoDup entries.*1 → Forall (λ entry, Name entry.2 = entry.1) entries →
  foldl (λ d entry, Copy entry.2 d) dest entries
  = list_to_map (prod_map id AnyValue <$> entries) ∪ dest.
Proof.
  revert dest. induction entries as [|[key value] entries IH]; intros dest Hnd Hkey.
  - cbn. by rewrite (left_id_L ∅ (∪)).
  - apply NoDup_cons in Hnd as [Hnotin Hnd]. apply Forall_cons in Hkey as [Hk Hkey].
    cbn [fst snd] in Hk, Hnotin. cbn [foldl fmap list_fmap prod_map snd fst list_to_map foldr id].
    rewrite IH by done. unfold Copy. rewrite Hk.
    rewrite <- insert_union_l, insert_union_r; [done|].
    apply not_elem_of_list_to_map_1.
    rewrite <- list_fmap_compose.
    by rewrite (list_fmap_ext (fst ∘ prod_map id AnyValue) fst entries)
      by by intros ? [? ?].
Qed.



Lemma AnyValue_propertyOf (name : string) (v : any) (prop : Property) :
  propertyOf name v = Some prop → AnyValue prop = normalize v.
Proof. destruct v; try done; by intros [= <-]. Qed.

Lemma builtEntries_values (items : list (string * any)) :
  Forall recognized items →
  prod_map id AnyValue <$> builtEntries items
  = map (λ item, (item.1, normalize item.2)) items.
Proof.
  induction 1 as [|[name v] items [prop Hp] _ IH]; [done|]. cbn in Hp.
  rewrite (builtEntries_cons _ _ _ _ Hp). cbn [fmap list_fmap map prod_map fst snd id].
  by rewrite (AnyValue_propertyOf _ _ _ Hp), <- IH.
Qed.

(** X16. Import and export agree. A map with distinct keys and values of
    recognized kinds that is made a collection and then exported with the
    default assign function into an empty map comes back with the same keys
    and values, except that an [int] has become the [int64] of the same bits;
    both counts are the number of entries. *)
Theorem import_then_export (ParseAny : string -> option Time)
    (rangeOrder : gmap string Property -> list (string * Property))
    (f : DefaultPropertyFactory) (items : list (string * any))
    (allow : option AllowAddFunc) (options : Options) :
  visitsAll rangeOrder → hookFree f → allowsAll allow →
  last (omap asAddPropertyPolicy options) = None →
  distinctKeys items → Forall recognized items → len items < 2 ^ 64 →
  ∃ p, MutableFromStringMap {| PropFactory := asPropertyFactory ParseAny f |}
         (Some items) allow options
       = Some (Some p, len items, None) ∧
       Map rangeOrder p ∅ DefaultMapAssign = (asMap items, len items).
Proof.
  intros Hperm Hf Ha Hpol Hdist Hrec Hlt.
  destruct (fromStringMap_distinct ParseAny f Hf allow Ha options items Hpol Hdist Hrec Hlt)
    as (p & Hfrom & Hmap & Hsize).
  assert (NoDup (builtEntries items).*1) as Hnd by by rewrite builtEntries_fst.
  assert (size (syncMap p) = length items) as Hsz.
  { rewrite Hmap, size_list_to_map by done.
    rewrite <- (length_fmap fst), builtEntries_fst by done. by rewrite length_fmap. }
  exists p. split; [exact Hfrom|]. specialize (Hperm (syncMap p)). unfold Map.
  assert (len (rangeOrder (syncMap p)) = len items) as Hlen.
  { unfold len. by rewrite Hperm, length_map_to_list, Hsz. }
  rewrite syncRange_export by (unfold isUint; lia). rewrite Hlen. f_equal; try lia.
  assert (NoDup (rangeOrder (syncMap p)).*1) as Hnd'.
  { rewrite Hperm. apply NoDup_fst_map_to_list. }
  rewrite foldl_Copy; [|done|].
  - rewrite (right_id_L ∅ (∪)). unfold asMap. rewrite <- builtEntries_values by done.
    rewrite !list_to_map_fmap, <- Hmap. f_equal.
    rewrite <- (list_to_map_to_list (syncMap p)) at 2.
    by apply list_to_map_proper.
  - apply Forall_forall. intros [key prop] Hin. cbn.
    rewrite Hperm in Hin. apply elem_of_map_to_list in Hin. rewrite Hmap in Hin.
    apply elem_of_list_to_map in Hin; [|done].
    apply list_elem_of_omap in Hin as ([name v] & _ & Hsome). cbn in Hsome.
    destruct (propertyOf name v) as [q|] eqn:Hq; [|done].
    injection Hsome as <- <-. by eapply propertyOf_Name.
Qed.

Lemma import_then_export_witness :
  ∃ p, MutableFromStringMap {| PropFactory := asPropertyFactory sampleParseAny ThePropertyFactory |}
         (Some [("title"%string, VString "t"); ("pages"%string, VInt 3)]) None []
       = Some (Some p, len [("title"%string, VString "t"); ("pages"%string, VInt 3)], None) ∧
       Map map_to_list p ∅ DefaultMapAssign
       = (asMap [("title"%string, VString "t"); ("pages"%string, VInt 3)],
          len [("title"%string, VString "t"); ("pages"%string, VInt 3)]).
Proof.
  apply (import_then_export sampleParseAny map_to_list ThePropertyFactory
           [("title"%string, VString "t"); ("pages"%string, VInt 3)] None []).
  - intros m. reflexivity.
  - split; reflexivity.
  - left. reflexivity.
  - reflexivity.
  - unfold distinctKeys. by_computation.
  - repeat constructor; by eexists.
  - reflexivity.
Defined.

(** ** Front matter: the indices and the errors *)

Lemma scanFrom_at_end (b buf line rest : bytes) (st : scanState) :
  bytes_.ReadString newline buf = (line, rest, true) → scanFrom b buf st = Some st.
Proof. intros E. unfold scanFrom. cbn [scanLoop]. by rewrite E. Qed.

Lemma scanFrom_closing (b : bytes) (buf done : bytes) (st : scanState) :
  b = done ++ buf → insideFrontMatter st = true → yamlEndIndex st = 0 →
  ∃ st', scanFrom b buf st = Some st' ∧
         insideFrontMatter st' = true ∧
         yamlStartIndex st' = yamlStartIndex st ∧
         (yamlEndIndex st' = 0 ∨ len done < yamlEndIndex st' <= len b).
Proof.
  remember (length buf) as n eqn:Hn. revert buf done Hn.
  induction n as [n IH] using lt_wf_ind. intros buf done -> Hb Hin Hend.
  destruct (bytes_.ReadString newline buf) as [[line rest] eof] eqn:E.
  destruct (ReadString_spec _ _ _ _ E) as (Hbuf & He & Hl). destruct eof.
  - rewrite (scanFrom_at_end _ _ _ _ _ E). exists st. auto.
  - specialize (Hl eq_refl). rewrite Hbuf, (scanFrom_line _ _ _ _ Hl).
    pose proof (isLine_nonempty _ Hl) as Hpos.
    assert (len b = len done + len line + len rest) as Hlen
      by (rewrite Hb, Hbuf, !len_app; lia).
    pose proof (len_nonneg rest). pose proof (len_nonneg done).
    assert (0 < len line) by (unfold len; lia).
    case_bool_decide.
    + destruct (IH (length rest) ltac:(rewrite Hbuf, length_app; lia) rest (done ++ line)
                  eq_refl) as (st' & -> & Hi & Hst & Hen); try done.
      { by rewrite Hb, Hbuf, app_assoc. }
      exists st'. repeat split; try done. rewrite len_app in Hen. lia.
    + rewrite Hin. cbn [negb]. eexists. split; [reflexivity|]. cbn.
      repeat split; try done. right. lia.
Qed.

Lemma scanFrom_opening (b : bytes) (buf done : bytes) :
  b = done ++ buf →
  ∃ st', scanFrom b buf scanStart = Some st' ∧
         (st' = scanStart ∨
          (insideFrontMatter st' = true ∧
           len done < yamlStartIndex st' <= len b ∧
           (yamlEndIndex st' = 0 ∨ yamlStartIndex st' < yamlEndIndex st' <= len b))).
Proof.
  remember (length buf) as n eqn:Hn. revert buf done Hn.
  induction n as [n IH] using lt_wf_ind. intros buf done -> Hb.
  destruct (bytes_.ReadString newline buf) as [[line rest] eof] eqn:E.
  destruct (ReadString_spec _ _ _ _ E) as (Hbuf & He & Hl). destruct eof.
  - rewrite (scanFrom_at_end _ _ _ _ _ E). exists scanStart. auto.
  - specialize (Hl eq_refl). rewrite Hbuf, (scanFrom_line _ _ _ _ Hl).
    pose proof (isLine_nonempty _ Hl) as Hpos.
    assert (len b = len done + len line + len rest) as Hlen
      by (rewrite Hb, Hbuf, !len_app; lia).
    pose proof (len_nonneg rest). pose proof (len_nonneg done).
    assert (0 < len line) by (unfold len; lia).
    assert (b = (done ++ line) ++ rest) as Hb' by by rewrite Hb, Hbuf, app_assoc.
    case_bool_decide.
    + destruct (IH (length rest) ltac:(rewrite Hbuf, length_app; lia) rest (done ++ line)
                  eq_refl Hb') as (st' & -> & [->|(Hi & Hst & Hen)]).
      * exists scanStart. auto.
      * exists st'. split; [done|]. right. rewrite len_app in Hst. repeat split; try done; lia.
    + cbn [negb insideFrontMatter scanStart yamlEndIndex].
      destruct (scanFrom_closing b rest (done ++ line)
                  {| insideFrontMatter := true; yamlStartIndex := len b - len rest;
                     yamlEndIndex := 0 |} Hb' eq_refl eq_refl)
        as (st' & -> & Hi & Hst & Hen).
      cbn [yamlStartIndex] in Hst. rewrite len_app in Hen.
      exists st'. split; [done|]. right. rewrite Hst. repeat split; try done; lia.
Qed.

(** X17. The scanning loop ends on every input, and its indices lie in the
    buffer: before an opening delimiter line both are zero; after one, the
    start index is positive and at most the length, and the end index is
    zero or lies above the start index and is at most the length, so that
    the two slice expressions of the function are in range. *)
Theorem scan_indices_in_range (b : bytes) :
  ∃ st, scan b = Some st ∧
        (insideFrontMatter st = false → yamlStartIndex st = 0 ∧ yamlEndIndex st = 0) ∧
        (insideFrontMatter st = true →
         0 < yamlStartIndex st <= len b ∧
         (yamlEndIndex st = 0 ∨
          (yamlStartIndex st < yamlEndIndex st <= len b ∧
           is_Some (slice b (yamlStartIndex st) (yamlEndIndex st)) ∧
           is_Some (slice b (yamlEndIndex st) (len b))))).
Proof.
  destruct (scanFrom_opening b b [] eq_refl) as (st & Hs & Hcases).
  exists st. split; [exact Hs|]. destruct Hcases as [->|(Hin & Hstart & Hend)].
  - split; [done|]. intros [=].
  - split; [by rewrite Hin|]. intros _. change (len []) with 0 in Hstart.
    split; [lia|]. destruct Hend as [H0|Hend]; [by left|]. right. split; [lia|].
    unfold slice. split.
    + rewrite !(proj2 (Z.leb_le _ _)) by lia. by eexists.
    + rewrite !(proj2 (Z.leb_le _ _)) by lia. by eexists.
Qed.

(** X18. Whatever the decoder, the factory, the allow functions and the
    options are, the only error that the extraction returns is that of the
    unclosed front matter, and it comes with neither body nor collection and
    with a count of zero. *)
Theorem extraction_error_is_unclosed_front_matter
    (UnmarshalText : bytes -> option (list (string * string)))
    (UnmarshalAny : bytes -> option (list (string * any)))
    (f : DefaultPropertiesFactory) (b : bytes) (smartParseFM : bool)
    (allow : option AllowAddFunc) (allowText : option AllowAddTextFunc)
    (options : Options) (body : option bytes) (props : option Default) (count : Z)
    (e : error) :
  fromYAMLFrontMatter UnmarshalText UnmarshalAny f b smartParseFM allow allowText options
  = Some (body, props, count, Some e) →
  body = None ∧ props = None ∧ count = 0 ∧
  ∃ startIndex, e = ErrFrontMatter true startIndex 0 ∧ 0 < startIndex <= len b.
Proof.
  unfold fromYAMLFrontMatter.
  destruct (scan_total b) as [st Hs]. rewrite Hs.
  destruct (scanFrom_opening b b [] eq_refl) as (st' & Hs' & Hcases).
  rewrite scan_scanFrom in Hs. change scanStart with
    {| insideFrontMatter := false; yamlStartIndex := 0; yamlEndIndex := 0 |} in Hs'.
  rewrite Hs in Hs'. injection Hs' as <-.
  destruct Hcases as [->|(Hin & Hstart & Hend)]; [done|].
  rewrite Hin. cbn [negb andb]. change (len []) with 0 in Hstart.
  destruct (yamlEndIndex st =? 0) eqn:E0.
  - apply Z.eqb_eq in E0. intros [= <- <- <- <-]. repeat split.
    exists (yamlStartIndex st). rewrite E0. split; [done|lia].
  - destruct (slice b (yamlStartIndex st) (yamlEndIndex st)); [|done].
    destruct smartParseFM.
    + destruct (UnmarshalText _); [|done].
      destruct (AddTextMap _ _ _ _) as [[? [? ?]]|]; [|done].
      by destruct (slice b (yamlEndIndex st) (len b)).
    + destruct (UnmarshalAny _); [|done].
      destruct (fromStringMap _ _ _ _) as [[[? ?] ?]|]; [|done].
      by destruct (slice b (yamlEndIndex st) (len b)).
Qed.

Lemma extraction_error_is_unclosed_front_matter_witness :
  fromYAMLFrontMatter sampleUnmarshalText sampleUnmarshalAny sampleFactory
    invalidFrontMatter1 false None None []
  = Some (None, None, 0, Some (ErrFrontMatter true 5 0)) ∧
  ∃ startIndex, ErrFrontMatter true 5 0 = ErrFrontMatter true startIndex 0 ∧
                0 < startIndex <= len invalidFrontMatter1.
Proof.
  assert (fromYAMLFrontMatter sampleUnmarshalText sampleUnmarshalAny sampleFactory
            invalidFrontMatter1 false None None []
          = Some (None, None, 0, Some (ErrFrontMatter true 5 0))) as H
    by (vm_compute; reflexivity).
  split; [exact H|].
  exact (proj2 (proj2 (proj2
           (extraction_error_is_unclosed_front_matter sampleUnmarshalText
              sampleUnmarshalAny sampleFactory invalidFrontMatter1 false None None []
              None None 0 (ErrFrontMatter true 5 0) H)))).
Defined.

(** X19. A front matter block that the decoder rejects is not reported:
    with both delimiter lines present the extraction then returns neither
    body nor collection, a count of zero, and no error, in both modes. *)
Theorem decode_failure_is_swallowed
    (UnmarshalText : bytes -> option (list (string * string)))
    (UnmarshalAny : bytes -> option (list (string * any)))
    (f : DefaultPropertiesFactory) (ls1 : list bytes) (open : bytes)
    (ls2 : list bytes) (close rest : bytes) (smartParseFM : bool)
    (allow : option AllowAddFunc) (allowText : option AllowAddTextFunc)
    (options : Options) :
  Forall plainLine ls1 → delimiterLine open →
  Forall plainLine ls2 → delimiterLine close →
  (if smartParseFM then UnmarshalText (concat ls2 ++ close) = None
   else UnmarshalAny (concat ls2 ++ close) = None) →
  fromYAMLFrontMatter UnmarshalText UnmarshalAny f
    (concat ls1 ++ open ++ concat ls2 ++ close ++ rest) smartParseFM allow allowText options
  = Some (None, None, 0, None).
Proof.
  intros H1 Ho H2 Hc Hfail.
  rewrite (extract_framed UnmarshalText UnmarshalAny f allow allowText options
             ls1 open ls2 close rest smartParseFM H1 Ho H2 Hc).
  destruct smartParseFM; by rewrite Hfail.
Qed.

Lemma decode_failure_is_swallowed_witness :
  fromYAMLFrontMatter sampleUnmarshalText sampleUnmarshalAny sampleFactory
    (unlines ["---"; "a: [1"; "---"; "body"]) true None None []
  = Some (None, None, 0, None).
Proof.
  refine (decode_failure_is_swallowed sampleUnmarshalText sampleUnmarshalAny sampleFactory
            [] (unlines ["---"]) [unlines ["a: [1"]] (unlines ["---"]) (unlines ["body"])
            true None None [] _ _ _ _ _).
  - concrete_lines.
  - concrete_line.
  - concrete_lines.
  - concrete_line.
  - vm_compute. reflexivity.
Defined.

(** X20. Without smart parsing, too, the error of the insertion is dropped:
    a value of unknown type in the block ends the insertion, and the
    extraction returns the trimmed body, the collection as far as it was
    filled, the count reached, and no error. *)
Theorem plain_parse_drops_insertion_error
    (UnmarshalText : bytes -> option (list (string * string)))
    (UnmarshalAny : bytes -> option (list (string * any)))
    (f : DefaultPropertiesFactory) (ls1 : list bytes) (open : bytes)
    (ls2 : list bytes) (close rest : bytes)
    (allow : option AllowAddFunc) (allowText : option AllowAddTextFunc)
    (options : Options) (items : list (string * any)) (props : option Default)
    (count : Z) (err : option error) :
  Forall plainLine ls1 → delimiterLine open →
  Forall plainLine ls2 → delimiterLine close →
  UnmarshalAny (concat ls2 ++ close) = Some items →
  fromStringMap f (Some items) allow options = Some (props, count, err) →
  fromYAMLFrontMatter UnmarshalText UnmarshalAny f
    (concat ls1 ++ open ++ concat ls2 ++ close ++ rest) false allow allowText options
  = Some (bytes_.TrimSpace rest, props, count, None).
Proof.
  intros H1 Ho H2 Hc Hu Ha.
  rewrite (extract_framed UnmarshalText UnmarshalAny f allow allowText options
             ls1 open ls2 close rest false H1 Ho H2 Hc).
  by rewrite Hu, Ha.
Qed.

Lemma plain_parse_drops_insertion_error_witness :
  fromStringMap sampleFactory (Some nestedEntries) None []
  = Some (Some holdsCardinalA, 1,
          Some (ErrUnknownType "m" "map[interface {}]interface {}"
                  (VOpaque "map[interface {}]interface {}" "map[]"))) ∧
  fromYAMLFrontMatter sampleUnmarshalText
    (onlyDecodes (unlines ["a: 1"; "m: {}"; "---"]) nestedEntries) sampleFactory
    nestedDocument false None None []
  = Some (Some (B "body"), Some holdsCardinalA, 1, None).
Proof.
  assert (fromStringMap sampleFactory (Some nestedEntries) None []
          = Some (Some holdsCardinalA, 1,
                  Some (ErrUnknownType "m" "map[interface {}]interface {}"
                          (VOpaque "map[interface {}]interface {}" "map[]")))) as Ha
    by reflexivity.
  split; [exact Ha|].
  refine (plain_parse_drops_insertion_error sampleUnmarshalText
            (onlyDecodes (unlines ["a: 1"; "m: {}"; "---"]) nestedEntries) sampleFactory
            [] (unlines ["---"]) [unlines ["a: 1"]; unlines ["m: {}"]] (unlines ["---"])
            (unlines ["body"]) None None [] nestedEntries (Some holdsCardinalA) 1
            _ _ _ _ _ _ Ha).
  - concrete_lines.
  - concrete_line.
  - concrete_lines.
  - concrete_line.
  - vm_compute. reflexivity.
Defined.

(** X21. What stands before the opening delimiter line is lost: with both
    delimiter lines present, the extraction returns the same as for the
    buffer that starts at the opening delimiter line. *)
Theorem text_before_front_matter_is_discarded
    (UnmarshalText : bytes -> option (list (string * string)))
    (UnmarshalAny : bytes -> option (list (string * any)))
    (f : DefaultPropertiesFactory) (ls1 : list bytes) (open : bytes)
    (ls2 : list bytes) (close rest : bytes) (smartParseFM : bool)
    (allow : option AllowAddFunc) (allowText : option AllowAddTextFunc)
    (options : Options) :
  Forall plainLine ls1 → delimiterLine open →
  Forall plainLine ls2 → delimiterLine close →
  fromYAMLFrontMatter UnmarshalText UnmarshalAny f
    (concat ls1 ++ open ++ concat ls2 ++ close ++ rest) smartParseFM allow allowText options
  = fromYAMLFrontMatter UnmarshalText UnmarshalAny f
      (open ++ concat ls2 ++ close ++ rest) smartParseFM allow allowText options.
Proof.
  intros H1 Ho H2 Hc.
  rewrite (extract_framed UnmarshalText UnmarshalAny f allow allowText options
             ls1 open ls2 close rest smartParseFM H1 Ho H2 Hc).
  pose proof (extract_framed UnmarshalText UnmarshalAny f allow allowText options
                [] open ls2 close rest smartParseFM (Forall_nil_2 _) Ho H2 Hc) as H.
  cbn [concat app] in H. by rewrite H.
Qed.

Lemma text_before_front_matter_is_discarded_witness :
  fromYAMLFrontMatter sampleUnmarshalText sampleUnmarshalAny sampleFactory
    (unlines ["title"; ""] ++ sampleDocument) true None None []
  = fromYAMLFrontMatter sampleUnmarshalText sampleUnmarshalAny sampleFactory
      sampleDocument true None None [].
Proof.
  refine (text_before_front_matter_is_discarded sampleUnmarshalText sampleUnmarshalAny
            sampleFactory [unlines ["title"]; unlines [""]] (unlines ["---"])
            [unlines ["a: 1"]] (unlines ["---"]) (unlines ["body"]) true None None []
            _ _ _ _).
  - concrete_lines.
  - concrete_line.
  - concrete_lines.
  - concrete_line.
Defined.

(** ** Front matter: the default configuration *)

Lemma FromAny_plain (f : DefaultPropertyFactory) (name : string) (v : any)
    (options : Options) :
  plainFactory f → firstCreator options = None →
  (∃ prop, FromAny f name v options = (Some prop, true, None)) ∨
  (∃ e, FromAny f name v options = (None, false, Some e)).
Proof.
  intros (Hf & Hc1 & Hc2) Hopt.
  destruct (propertyOf name v) as [prop|] eqn:Hp.
  - left. exists prop. by apply FromAny_builds.
  - right. assert (unknownKind v) as Hu by by destruct v.
    rewrite (FromAny_unknown _ _ _ _ Hu). unfold handleUnknownType.
    rewrite perCallCreator_first, Hopt, Hc1, Hc2. by eexists.
Qed.

Lemma AddChecked_plain (ParseAny : string -> option Time) (f : DefaultPropertyFactory)
    (p : Default) (name : string) (v : any) (options : Options) :
  plainFactory f → firstCreator options = None →
  pf p = asPropertyFactory ParseAny f → addPolicy p = None →
  is_Some (AddChecked p name v None options).
Proof.
  intros Hf Hopt Hpf Hpol. unfold AddChecked. rewrite Hpf.
  cbn [pfFromAny asPropertyFactory].
  destruct (FromAny_plain f name v options Hf Hopt) as [[prop ->]|[e ->]]; [|by eexists].
  unfold AddProperty. rewrite Hpol. by eexists.
Qed.

Lemma addMapLoop_plain (ParseAny : string -> option Time) (f : DefaultPropertyFactory)
    (items : list (string * any)) (p : Default) (options : Options) (count : Z) :
  plainFactory f → firstCreator options = None →
  pf p = asPropertyFactory ParseAny f → addPolicy p = None →
  is_Some (addMapLoop p items None options count).
Proof.
  intros Hf Hopt. revert p count.
  induction items as [|[name v] items IH]; intros p count Hpf Hpol; [by eexists|].
  cbn [addMapLoop].
  destruct (AddChecked_plain ParseAny f p name v options Hf Hopt Hpf Hpol)
    as [[p1 [[prop ok] err]] E].
  rewrite E. destruct (AddChecked_pf _ _ _ _ _ _ _ E) as [Hpf1 Hpol1].
  destruct err as [e|]; [by eexists|]. apply IH; congruence.
Qed.

(** X22. With a factory that has neither hook nor creator, nil allow
    functions and options that hold neither policy nor creator, the
    extraction returns on every input, whatever the decoder gives: the loop
    ends, no slice is out of range, and no nil property is stored. *)
Theorem plain_extraction_always_returns (ParseAny : string -> option Time)
    (UnmarshalText : bytes -> option (list (string * string)))
    (UnmarshalAny : bytes -> option (list (string * any)))
    (f : DefaultPropertyFactory) (b : bytes) (smartParseFM : bool) (options : Options) :
  plainFactory f → withoutHooks options →
  is_Some (fromYAMLFrontMatter UnmarshalText UnmarshalAny
             {| PropFactory := asPropertyFactory ParseAny f |} b smartParseFM
             None None options).
Proof.
  intros Hf [Hpol Hopt]. unfold fromYAMLFrontMatter.
  destruct (scanFrom_opening b b [] eq_refl) as (st & Hs & Hcases).
  rewrite scan_scanFrom. change scanStart with
    {| insideFrontMatter := false; yamlStartIndex := 0; yamlEndIndex := 0 |} in Hs.
  rewrite Hs. destruct Hcases as [->|(Hin & Hstart & Hend)]; [by eexists|].
  rewrite Hin. cbn [negb andb]. change (len []) with 0 in Hstart.
  destruct (yamlEndIndex st =? 0) eqn:E0; [by eexists|].
  apply Z.eqb_neq in E0. destruct Hend as [?|Hend]; [done|].
  unfold slice. rewrite !(proj2 (Z.leb_le _ _)) by lia. cbn [andb].
  set (p0 := EmptyMutable {| PropFactory := asPropertyFactory ParseAny f |} options).
  assert (pf p0 = asPropertyFactory ParseAny f ∧ addPolicy p0 = None) as [Hpf0 Hpol0].
  { subst p0. unfold EmptyMutable, newDefaultProperties. cbn [PropFactory].
    match goal with
    | |- context [configure ?r options] => destruct (configure_last r options) as (-> & -> & _)
    end.
    by rewrite Hpol. }
  destruct smartParseFM.
  - destruct (UnmarshalText _) as [items|]; [|by eexists]. cbn [AddTextMap].
    rewrite (addTextMapLoop_classified ParseAny f) by done.
    destruct (addMapLoop_plain ParseAny f (classifyAll ParseAny items) p0 options 0
                Hf Hopt Hpf0 Hpol0) as [[p1 [count err]] ->].
    by eexists.
  - destruct (UnmarshalAny _) as [items|]; [|by eexists].
    unfold fromStringMap. fold p0. cbn [AddMap].
    destruct (addMapLoop_plain ParseAny f items p0 options 0 Hf Hopt Hpf0 Hpol0)
      as [[p1 [count err]] ->].
    by eexists.
Qed.

Lemma plain_extraction_always_returns_witness :
  is_Some (fromYAMLFrontMatter sampleUnmarshalText
             (onlyDecodes (unlines ["a: 1"; "m: {}"; "---"]) nestedEntries)
             {| PropFactory := asPropertyFactory sampleParseAny ThePropertyFactory |}
             nestedDocument false None None [plainOption "extra"]).
Proof.
  apply (plain_extraction_always_returns sampleParseAny sampleUnmarshalText
           (onlyDecodes (unlines ["a: 1"; "m: {}"; "---"]) nestedEntries)
           ThePropertyFactory nestedDocument false [plainOption "extra"]).
  - repeat split.
  - split; reflexivity.
Defined.

Lemma classifyAll_fst (ParseAny : string -> option Time) (items : list (string * string)) :
  (classifyAll ParseAny items).*1 = items.*1.
Proof.
  induction items as [|[name text] items IH]; [done|].
  cbn [classifyAll map fmap list_fmap fst]. f_equal. exact IH.
Qed.

Lemma classifyAll_recognized (ParseAny : string -> option Time)
    (items : list (string * string)) :
  Forall recognized (classifyAll ParseAny items).
Proof.
  induction items as [|[name text] items IH]; [constructor|].
  constructor; [|done]. unfold recognized. cbn [fst snd].
  destruct (propertyOf_classify ParseAny name text) as (prop & -> & _). by eexists.
Qed.

(** X23. Smart parsing, end to end. A block between two delimiter lines
    that decodes to a map with distinct keys makes a collection with one
    property for every key: the count and [Size] are the number of keys, and
    every key is found with the property of the value that its text is
    classified as; the body is what follows the closing line, trimmed.
    (Factory without after-create hook, no policy among the options, no
    allow function.) *)
Theorem smart_front_matter_properties (ParseAny : string -> option Time)
    (UnmarshalText : bytes -> option (list (string * string)))
    (UnmarshalAny : bytes -> option (list (string * any)))
    (f : DefaultPropertyFactory) (ls1 : list bytes) (open : bytes)
    (ls2 : list bytes) (close rest : bytes) (allow : option AllowAddFunc)
    (options : Options) (items : list (string * string)) :
  Forall plainLine ls1 → delimiterLine open →
  Forall plainLine ls2 → delimiterLine close →
  UnmarshalText (concat ls2 ++ close) = Some items →
  distinctKeys items → len items < 2 ^ 64 →
  hookFree f → last (omap asAddPropertyPolicy options) = None →
  ∃ p, fromYAMLFrontMatter UnmarshalText UnmarshalAny
         {| PropFactory := asPropertyFactory ParseAny f |}
         (concat ls1 ++ open ++ concat ls2 ++ close ++ rest) true allow None options
       = Some (bytes_.TrimSpace rest, Some p, len items, None) ∧
       Size p = len items ∧
       (∀ name text, (name, text) ∈ items →
          Named p name = (propertyOf name (classify ParseAny text), true)).
Proof.
  intros H1 Ho H2 Hc Hu Hdist Hlt Hf Hpol.
  rewrite (extract_framed UnmarshalText UnmarshalAny _ allow None options
             ls1 open ls2 close rest true H1 Ho H2 Hc), Hu.
  set (p0 := EmptyMutable {| PropFactory := asPropertyFactory ParseAny f |} options).
  assert (pf p0 = asPropertyFactory ParseAny f ∧ addPolicy p0 = None) as [Hpf0 Hpol0].
  { subst p0. unfold EmptyMutable, newDefaultProperties. cbn [PropFactory].
    match goal with
    | |- context [configure ?r options] => destruct (configure_last r options) as (-> & -> & _)
    end.
    by rewrite Hpol. }
  destruct (newDefaultProperties_empty (asPropertyFactory ParseAny f) options)
    as (Hm & Hs & _).
  assert (len (classifyAll ParseAny items) = len items) as Hlen
    by (unfold len, classifyAll; by rewrite length_map).
  pose proof (len_nonneg items) as Hnn.
  assert (distinctKeys (classifyAll ParseAny items)) as Hdist'
    by (unfold distinctKeys; by rewrite classifyAll_fst).
  pose proof (classifyAll_recognized ParseAny items) as Hrec.
  destruct (addMapLoop_distinct ParseAny f Hf None (or_introl eq_refl) options
              (classifyAll ParseAny items) p0 0 Hpf0 Hpol0 Hdist' Hrec)
    as (p & Hloop & Hmap & Hsize);
    try (subst p0; unfold EmptyMutable; cbn [PropFactory]; rewrite ?Hs, ?Hlen;
         unfold isUint; lia).
  cbn [AddTextMap]. rewrite (addTextMapLoop_classified ParseAny f) by done.
  rewrite Hloop, Hlen. exists p.
  assert (syncMap p0 = ∅ ∧ Size p0 = 0) as [Hm0 Hs0] by (by subst p0).
  rewrite Hm0, (right_id_L ∅ (∪)) in Hmap. rewrite Hs0, Hlen in Hsize.
  split; [do 3 f_equal; lia|]. split; [lia|].
  intros name text Hin.
  assert ((name, classify ParseAny text) ∈ classifyAll ParseAny items) as Hin'.
  { unfold classifyAll. apply list_elem_of_fmap. by exists (name, text). }
  destruct (propertyOf_classify ParseAny name text) as (prop & Hprop & _).
  unfold Named. rewrite Hmap, Hprop.
  rewrite (elem_of_list_to_map_1 _ name prop); [done| |].
  - by rewrite builtEntries_fst.
  - by eapply elem_of_builtEntries.
Qed.

Lemma smart_front_matter_properties_witness :
  ∃ p, fromYAMLFrontMatter sampleUnmarshalText sampleUnmarshalAny
         {| PropFactory := asPropertyFactory sampleParseAny ThePropertyFactory |}
         (concat [unlines [""]] ++ unlines ["---"]
            ++ concat [unlines ["description: test description"]; unlines ["number: 221"];
                       unlines ["flag: true"]; unlines ["date: 2006-01-02T15:04:05Z07:00"]]
            ++ unlines ["---"] ++ unlines ["test body"]) true None None []
       = Some (bytes_.TrimSpace (unlines ["test body"]), Some p,
               len [("description", "test description"); ("number", "221");
                    ("flag", "true"); ("date", "2006-01-02T15:04:05Z07:00")]%string, None) ∧
       Size p = len [("description", "test description"); ("number", "221");
                     ("flag", "true"); ("date", "2006-01-02T15:04:05Z07:00")]%string ∧
       (∀ name text,
          (name, text) ∈ [("description", "test description"); ("number", "221");
                          ("flag", "true"); ("date", "2006-01-02T15:04:05Z07:00")]%string →
          Named p name = (propertyOf name (classify sampleParseAny text), true)).
Proof.
  apply (smart_front_matter_properties sampleParseAny sampleUnmarshalText sampleUnmarshalAny
           ThePropertyFactory [unlines [""]] (unlines ["---"])
           [unlines ["description: test description"]; unlines ["number: 221"];
            unlines ["flag: true"]; unlines ["date: 2006-01-02T15:04:05Z07:00"]]
           (unlines ["---"]) (unlines ["test body"]) None []
           [("description", "test description"); ("number", "221");
            ("flag", "true"); ("date", "2006-01-02T15:04:05Z07:00")]%string).
  - concrete_lines.
  - concrete_line.
  - concrete_lines.
  - concrete_line.
  - vm_compute. reflexivity.
  - unfold distinctKeys. by_computation.
  - reflexivity.
  - split; reflexivity.
  - reflexivity.
Defined.
